(** * School registry: validators, create path and proximity ranking

    A shallow embedding of [src/controllers/schoolController.js] and of the
    utilities it imports ([calculateDistance], [validateSchoolData],
    [validateCoordinates]), together with the properties of the written
    specification that concern them.

    Layout:
    - [JS]        : the fragment of JavaScript values the code inspects,
                    binary64 numbers, [String.prototype.trim], [parseFloat];
    - [Validator] : [validateCoordinates] and the conditions it shares
                    with [validateSchoolData];
    - [Store]     : the [schools] table, the store monad, the duplicate
                    check, [validateSchoolData] and [addSchool];
    - [Proximity] : [calculateDistance] and the ranking of [listSchools],
                    over the real numbers that binary64 approximates;
    - [Spec]      : the words of the specification the statements use;
    - [Listing]   : [listSchools], from the query to the response;
    - [Notions]   : further words of the statements, and the records and
                    stores the examples use.

    The properties follow the definitions: Numbers, strings, the
    coordinate validator, the school validator and the create path, the
    proximity engine, the query path. *)

From Stdlib Require Import ZArith Bool List Ascii String Lia.
From Stdlib Require Import SpecFloat.
From Stdlib Require Import QArith Reals Lra Permutation Sorted.
Import ListNotations.

Local Open Scope Z_scope.

(* ================================================================= *)
(** ** JavaScript values *)

Module JS.

(** A Number is an IEEE 754 binary64 value.  [spec_float] is the standard
    library's specification of those values: signed zeros, signed
    infinities, one NaN, and [S754_finite s m e] for (-1)^s * m * 2^e. *)
Definition number := spec_float.

Definition prec : Z := 53.
Definition emax : Z := 1024.

Definition NaN : number := S754_nan.
Definition Infinity : number := S754_infinity false.

(** The Number nearest to an integer (ties to even). *)
Definition of_Z (n : Z) : number := binary_normalize prec emax n 0 false.

Definition neg (x : number) : number := SFopp x.

(** The relational operators [<] and [>] on Numbers; any comparison with
    NaN is false. *)
Definition lt (x y : number) : bool := SFltb x y.
Definition gt (x y : number) : bool := SFltb y x.
Definition le (x y : number) : bool := SFleb x y.

(** The global functions [isNaN] and [isFinite], at a Number. *)
Definition isNaN (x : number) : bool :=
  match x with S754_nan => true | _ => false end.

Definition isFinite (x : number) : bool :=
  match x with S754_nan | S754_infinity _ => false | _ => true end.

(** The values that reach the validators: fields of a parsed JSON body or
    of a parsed query string.  [JObject] stands for every value whose
    [typeof] is ["object"] (arrays included); the code never looks inside
    one.  A [string] is a sequence of code units below 256. *)
Inductive value : Type :=
  | JUndefined
  | JNull
  | JBool (b : bool)
  | JNum (x : number)
  | JStr (s : string)
  | JObject.

(** ToBoolean. *)
Definition truthy (v : value) : bool :=
  match v with
  | JUndefined | JNull => false
  | JBool b => b
  | JNum (S754_zero _) | JNum S754_nan => false
  | JNum _ => true
  | JStr s => negb (String.eqb s "")
  | JObject => true
  end.

(* ----------------------------------------------------------------- *)
(** *** [String.prototype.trim] *)

(** WhiteSpace and LineTerminator code units below 256: TAB, LF, VT, FF,
    CR, SP and NBSP. *)
Definition is_whitespace (c : ascii) : bool :=
  let n := N_of_ascii c in
  ((9 <=? n) && (n <=? 13) || (n =? 32) || (n =? 160))%N.

Fixpoint trimStart (s : string) : string :=
  match s with
  | EmptyString => EmptyString
  | String c r => if is_whitespace c then trimStart r else s
  end.

Fixpoint trimEnd (s : string) : string :=
  match s with
  | EmptyString => EmptyString
  | String c r =>
      match trimEnd r with
      | EmptyString => if is_whitespace c then EmptyString
                       else String c EmptyString
      | r' => String c r'
      end
  end.

Definition trim (s : string) : string := trimEnd (trimStart s).

(* ----------------------------------------------------------------- *)
(** *** [parseFloat] *)

Definition is_digit (c : ascii) : bool :=
  let n := N_of_ascii c in ((48 <=? n) && (n <=? 57))%N.

Definition digit_value (c : ascii) : Z := Z.of_N (N_of_ascii c) - 48.

(** The longest run of decimal digits at the head of a string, and what
    follows it. *)
Fixpoint span_digits (s : string) : string * string :=
  match s with
  | String c r =>
      if is_digit c then let (ds, rest) := span_digits r in (String c ds, rest)
      else (EmptyString, s)
  | EmptyString => (EmptyString, EmptyString)
  end.

(** The mathematical value of DecimalDigits, most significant first. *)
Fixpoint digits_value_from (acc : Z) (ds : string) : Z :=
  match ds with
  | EmptyString => acc
  | String c r => digits_value_from (10 * acc + digit_value c) r
  end.

Definition digits_value (ds : string) : Z := digits_value_from 0 ds.

Definition take_sign (s : string) : bool * string :=
  match s with
  | String "+" r => (false, r)
  | String "-" r => (true, r)
  | _ => (false, s)
  end.

(** ExponentPart: [e] or [E], an optional sign, at least one digit.  When
    the text after the mantissa is not a complete ExponentPart, it is not
    part of the literal and the exponent is 0. *)
Definition exponent_part (s : string) : Z :=
  match s with
  | String c r =>
      if (Ascii.eqb c "e" || Ascii.eqb c "E")%bool then
        let (sg, r1) := take_sign r in
        let (ds, _) := span_digits r1 in
        match ds with
        | EmptyString => 0
        | _ => if sg then - digits_value ds else digits_value ds
        end
      else 0
  | EmptyString => 0
  end.

(** The Number nearest to [(-1)^sg * m * 10^e] for [m >= 0] (ties to even;
    results of magnitude 2^1024 or more are infinite). *)
Definition decimal_to_number (sg : bool) (m e : Z) : number :=
  match m with
  | Zpos p =>
      match e with
      | Zneg k =>
          let '(q, e2, loc) :=
            SFdiv_core_binary prec emax (Zpos p) 0 (Z.pow_pos 10 k) 0 in
          binary_round_aux prec emax sg q e2 loc
      | _ => binary_round prec emax sg (p * Z.to_pos (10 ^ e)) 0
      end
  | _ => S754_zero sg
  end.

(** The optional fraction after the integer digits: a point and the
    digits that follow it. *)
Definition fraction_part (s : string) : string * string :=
  match s with
  | String "." r => span_digits r
  | _ => (EmptyString, s)
  end.

(** StrUnsignedDecimalLiteral, longest match at the head of [s]:
    [Infinity], or digits with an optional fraction and an optional
    exponent, with at least one digit before the exponent. *)
Definition unsigned_literal (sg : bool) (s : string) : number :=
  if String.prefix "Infinity" s then S754_infinity sg
  else
    let (ip, s2) := span_digits s in
    let (fp, s3) := fraction_part s2 in
    match (ip ++ fp)%string with
    | EmptyString => NaN
    | ds =>
        decimal_to_number sg (digits_value ds)
          (exponent_part s3 - Z.of_nat (String.length fp))
    end.

(** [parseFloat] at a String: leading white space is skipped, the longest
    prefix that is a StrDecimalLiteral is converted, and the result is NaN
    when there is no such prefix. *)
Definition parseFloat (s : string) : number :=
  let (sg, r) := take_sign (trimStart s) in unsigned_literal sg r.

End JS.

(* ================================================================= *)
(** ** The validators *)

Module Validator.
Import JS.
Local Open Scope string_scope.
Local Open Scope bool_scope.
Local Open Scope Z_scope.

(** The object a validator returns: [{ isValid: false, message }] or
    [{ isValid: true, lat, lon }]. *)
Inductive validation : Type :=
  | Invalid (message : string)
  | Valid (lat lon : value).

Definition isValid (v : validation) : bool :=
  match v with Valid _ _ => true | Invalid _ => false end.

Definition msg_name : string :=
  "Name is required and must be at least 3 characters long".
Definition msg_address : string :=
  "Address is required and must be at least 5 characters long".
Definition msg_required : string :=
  "Latitude and longitude are required and must not be empty".
Definition msg_latitude : string :=
  "Latitude must be a valid number between -90 and 90".
Definition msg_longitude : string :=
  "Longitude must be a valid number between -180 and 180".
Definition msg_no_database : string :=
  "Database connection is not available".
Definition msg_duplicate : string :=
  "School with the same name and address already exists".
Definition msg_duplicate_error : string :=
  "Error checking for duplicates".

(** [v === undefined], [v === null], [v === ""]. *)
Definition is_undefined (v : value) : bool :=
  match v with JUndefined => true | _ => false end.
Definition is_null (v : value) : bool :=
  match v with JNull => true | _ => false end.
Definition is_empty_string (v : value) : bool :=
  match v with JStr s => String.eqb s "" | _ => false end.

(** The first condition of both validators. *)
Definition coordinates_missing (latitude longitude : value) : bool :=
  is_undefined latitude || is_undefined longitude ||
  is_null latitude || is_null longitude ||
  is_empty_string latitude || is_empty_string longitude.

(** [typeof v === "string" ? parseFloat(v.trim()) : v]. *)
Definition parse_if_string (v : value) : value :=
  match v with
  | JStr s => JNum (parseFloat (trim s))
  | _ => v
  end.

(** [typeof v !== "number" || isNaN(v) || !isFinite(v) || v < lo || v > hi]. *)
Definition not_in_range (lo hi : number) (v : value) : bool :=
  match v with
  | JNum x => isNaN x || negb (isFinite x) || lt x lo || gt x hi
  | _ => true
  end.

Definition bad_latitude : value -> bool := not_in_range (of_Z (-90)) (of_Z 90).
Definition bad_longitude : value -> bool :=
  not_in_range (of_Z (-180)) (of_Z 180).

Definition validateCoordinates (latitude longitude : value) : validation :=
  if coordinates_missing latitude longitude then Invalid msg_required
  else
    let lat := parse_if_string latitude in
    let lon := parse_if_string longitude in
    if bad_latitude lat then Invalid msg_latitude
    else if bad_longitude lon then Invalid msg_longitude
    else Valid lat lon.

(** The request body of the create path, destructured:
    [const { name, address, latitude, longitude } = schoolData].  A field
    that the body lacks is [JUndefined]. *)
Record schoolData : Type := mkSchoolData {
  name : value;
  address : value;
  latitude : value;
  longitude : value
}.

(** [!v || typeof v !== "string" || v.trim().length < n]. *)
Definition bad_text (n : Z) (v : value) : bool :=
  negb (truthy v) ||
  match v with
  | JStr s => Z.of_nat (String.length (trim s)) <? n
  | _ => true
  end.

(** The String that a value of type ["string"] holds.  The code reads it
    only after [bad_text] has established that type. *)
Definition string_of (v : value) : string :=
  match v with JStr s => s | _ => "" end.

End Validator.

(* ================================================================= *)
(** ** The store and the create path *)

Module Store.
Import JS Validator.
Local Open Scope string_scope.
Local Open Scope bool_scope.
Local Open Scope Z_scope.

(** A row of the [schools] table. *)
Record school : Type := mkSchool {
  school_id : Z;
  school_name : string;
  school_address : string;
  school_latitude : number;
  school_longitude : number
}.

(** The statements the controller and the validator send. *)
Inductive statement : Type :=
  | SelectByNameAddress (n a : string)
  | InsertSchool (n a : string) (lat lon : number)
  | SelectAll.

(** Modelled from the spec: the store collaborator.  The [db] module and
    the table it creates are not among the sources; the specification
    gives the collaborator as [exists_by_name_address], [insert] returning
    a generated identifier and [fetch_all], each of which may fail.

    [rows] is the content of the table in insertion order, [next_id] the
    identifier the next insert receives, [sent] the statements received so
    far (most recent first), and [fault k] tells whether the statement
    received after [k] earlier ones fails. *)
Record db : Type := mkDb {
  rows : list school;
  next_id : Z;
  sent : list statement;
  fault : nat -> bool
}.

(** A computation that talks to the store either returns or throws, and
    leaves a store behind. *)
Inductive outcome (A : Type) : Type :=
  | Returned (a : A)
  | Thrown.
Arguments Returned {A} a.
Arguments Thrown {A}.

Definition M (A : Type) : Type := db -> outcome A * db.

Definition ret {A} (a : A) : M A := fun d => (Returned a, d).

Definition bind {A B} (m : M A) (k : A -> M B) : M B :=
  fun d =>
    match m d with
    | (Returned a, d') => k a d'
    | (Thrown, d') => (Thrown, d')
    end.

(** [try { m } catch (error) { h }]. *)
Definition try_catch {A} (m h : M A) : M A :=
  fun d =>
    match m d with
    | (Returned a, d') => (Returned a, d')
    | (Thrown, d') => h d'
    end.

Notation "x <- m ;; k" := (bind m (fun x => k))
  (at level 61, m at next level, right associativity).

Section Collation.

(** The comparison the table's collation gives [name = ?] and
    [address = ?]; its first argument is the stored column. *)
Variable sql_eq : string -> string -> bool.

Definition matches (n a : string) (r : school) : bool :=
  sql_eq (school_name r) n && sql_eq (school_address r) a.

(** [await db.execute(sql, params)] and [await pool.query(sql, params)]:
    the statement is sent; when the store fails on it the call throws and
    no row changes, otherwise the statement takes [effect]. *)
Definition send {A} (q : statement) (effect : db -> A * db) : M A :=
  fun d =>
    let d1 := mkDb (rows d) (next_id d) (q :: sent d) (fault d) in
    if fault d (List.length (sent d)) then (Thrown, d1)
    else let (a, d2) := effect d1 in (Returned a, d2).

(** [SELECT id FROM schools WHERE name = ? AND address = ?]. *)
Definition select_by_name_address (n a : string) : M (list school) :=
  send (SelectByNameAddress n a)
       (fun d => (filter (matches n a) (rows d), d)).

(** [INSERT INTO schools (name, address, latitude, longitude) VALUES
    (?, ?, ?, ?)]; the result is [insertId]. *)
Definition insert_school (n a : string) (lat lon : number) : M Z :=
  send (InsertSchool n a lat lon)
       (fun d => (next_id d,
                  mkDb (rows d ++ [mkSchool (next_id d) n a lat lon])
                       (next_id d + 1) (sent d) (fault d))).

(** [SELECT id, name, address, latitude, longitude FROM schools]. *)
Definition select_all : M (list school) :=
  send SelectAll (fun d => (rows d, d)).

(** The [db] argument of [validateSchoolData]: [NoHandle] is a value that
    is falsy or has no [execute] function, [Pool] the connection pool. *)
Inductive handle : Type := NoHandle | Pool.

(** The [try] block of [validateSchoolData]: [Some v] when the block
    returns [v] from the function, [None] when control leaves the block. *)
Definition duplicate_check (h : handle) (n a : string)
  : M (option validation) :=
  try_catch
    (match h with
     | NoHandle => ret (Some (Invalid msg_no_database))
     | Pool =>
         rows <- select_by_name_address (trim n) (trim a) ;;
         if 0 <? Z.of_nat (List.length rows)
         then ret (Some (Invalid msg_duplicate))
         else ret None
     end)
    (ret (Some (Invalid msg_duplicate_error))).

Definition validateSchoolData (sd : schoolData) (h : handle) : M validation :=
  if bad_text 3 (name sd) then ret (Invalid msg_name)
  else if bad_text 5 (address sd) then ret (Invalid msg_address)
  else if coordinates_missing (latitude sd) (longitude sd)
  then ret (Invalid msg_required)
  else
    let lat := parse_if_string (latitude sd) in
    let lon := parse_if_string (longitude sd) in
    if bad_latitude lat then ret (Invalid msg_latitude)
    else if bad_longitude lon then ret (Invalid msg_longitude)
    else
      r <- duplicate_check h (string_of (name sd)) (string_of (address sd)) ;;
      match r with
      | Some v => ret v
      | None => ret (Valid lat lon)
      end.

(** [parseFloat(v)] as the create path applies it to the body's
    [latitude] and [longitude] once validation has accepted them, that is
    to a String or to a finite Number; a Number is first converted to a
    String that denotes it, which loses only the sign of zero. *)
Definition parseFloat_value (v : value) : number :=
  match v with
  | JStr s => parseFloat s
  | JNum (S754_zero _) => S754_zero false
  | JNum x => x
  | _ => NaN
  end.

(** The responses of the create path: [res.status(..).json(..)]. *)
Inductive response : Type :=
  | ValidationFailed (error : string)
  | Created (schoolId : Z) (n a : string) (lat lon : number)
  | InternalError.

Definition status (r : response) : Z :=
  match r with
  | ValidationFailed _ => 400
  | Created _ _ _ _ _ => 201
  | InternalError => 500
  end.

Definition addSchool (body : schoolData) : M response :=
  try_catch
    (validation <- validateSchoolData body Pool ;;
     match validation with
     | Invalid message => ret (ValidationFailed message)
     | Valid _ _ =>
         let n := string_of (name body) in
         let a := string_of (address body) in
         let lat := parseFloat_value (latitude body) in
         let lon := parseFloat_value (longitude body) in
         insertId <- insert_school n a lat lon ;;
         ret (Created insertId n a lat lon)
     end)
    (ret InternalError).

(** A sequence of create requests, one after the other. *)
Fixpoint addSchools (bodies : list schoolData) : M (list response) :=
  match bodies with
  | [] => ret []
  | b :: bs =>
      r <- addSchool b ;;
      rs <- addSchools bs ;;
      ret (r :: rs)
  end.

End Collation.

(** The key the duplicate rule speaks of. *)
Definition key (r : school) : string * string :=
  (trim (school_name r), trim (school_address r)).

(** No two stored rows have the same trimmed name and trimmed address. *)
Definition unique_keys (d : db) : Prop := NoDup (map key (rows d)).

(** Every stored name and address is free of surrounding white space. *)
Definition stored_trimmed (d : db) : Prop :=
  Forall (fun r => trim (school_name r) = school_name r /\
                   trim (school_address r) = school_address r) (rows d).

Definition empty_db : db := mkDb [] 1 [] (fun _ => false).

End Store.

(* ================================================================= *)
(** ** The proximity engine *)

Module Proximity.
Local Open Scope R_scope.

(** Coordinates and distances are real numbers here: [Math.sin],
    [Math.cos], [Math.atan2] and [Math.sqrt] are the functions that the
    binary64 operations approximate, and [Math.PI] is [PI]. *)

(** [Math.atan2(y, x)]: the angle of the point [(x, y)], in (-PI, PI]. *)
Definition atan2 (y x : R) : R :=
  if Rlt_dec 0 x then atan (y / x)
  else if Rlt_dec x 0 then
    if Rle_dec 0 y then atan (y / x) + PI else atan (y / x) - PI
  else if Rlt_dec 0 y then PI / 2
  else if Rlt_dec y 0 then - (PI / 2)
  else 0.

Definition toRadians (degrees : R) : R := degrees * PI / 180.

Definition calculateDistance (lat1 lon1 lat2 lon2 : R) : R :=
  let dLat := toRadians (lat2 - lat1) in
  let dLon := toRadians (lon2 - lon1) in
  let lat1 := toRadians lat1 in
  let lat2 := toRadians lat2 in
  let a := sin (dLat / 2) * sin (dLat / 2) +
           sin (dLon / 2) * sin (dLon / 2) * cos lat1 * cos lat2 in
  let c := 2 * atan2 (sqrt a) (sqrt (1 - a)) in
  let R := 6371 in
  R * c.

(** The integer nearest to [x], the larger one when two are equally near. *)
Definition nearest_integer (x : R) : Z := Int_part (x + / 2).

(** [parseFloat(x.toFixed(2))]: [toFixed] works on the magnitude and puts
    the sign back, and leaves magnitudes from 10^21 on as they are. *)
Definition round2 (x : R) : R :=
  if Rle_dec (10 ^ 21) (Rabs x) then x
  else if Rlt_dec x 0 then - (IZR (nearest_integer (- x * 100)) / 100)
  else IZR (nearest_integer (x * 100)) / 100.

(** A row as [SELECT id, name, address, latitude, longitude] returns it. *)
Record school : Type := mkSchool {
  id : Z;
  name : string;
  address : string;
  latitude : R;
  longitude : R
}.

(** [{ ...school, distance }]. *)
Record ranked : Type := mkRanked {
  row : school;
  distance : R
}.

Section ArraySort.

Variable A : Type.

(** [Array.prototype.sort(compareFn)] for a comparator that returns a
    number: the stable sort, in which [x] stays ahead of a later [y]
    unless [compareFn x y] is positive. *)
Variable compareFn : A -> A -> R.

Fixpoint insert (x : A) (l : list A) : list A :=
  match l with
  | [] => [x]
  | y :: l' =>
      if Rle_dec (compareFn x y) 0 then x :: l else y :: insert x l'
  end.

Definition sort (l : list A) : list A := fold_right insert [] l.

End ArraySort.

Arguments insert {A} compareFn x l.
Arguments sort {A} compareFn l.

(** The callback of [schools.map]. *)
Definition withDistance (userLat userLon : R) (s : school) : ranked :=
  let distance :=
    calculateDistance userLat userLon (latitude s) (longitude s) in
  mkRanked s (round2 distance).

(** [(a, b) => a.distance - b.distance]. *)
Definition byDistance (a b : ranked) : R := distance a - distance b.

(** The ranking of [listSchools]: the map, then the sort. *)
Definition rankSchools (userLat userLon : R) (schools : list school)
  : list ranked :=
  let schoolsWithDistance := map (withDistance userLat userLon) schools in
  sort byDistance schoolsWithDistance.

End Proximity.

(* ================================================================= *)
(** ** The vocabulary of the specification *)

Module Spec.
Import JS Validator Store.
Local Open Scope string_scope.
Local Open Scope bool_scope.
Local Open Scope Z_scope.

(** *** Numbers and their values *)

(** A Number is well formed when its mantissa and exponent are those of a
    binary64 value. *)
Definition well_formed (x : number) : Prop := valid_binary prec emax x = true.

(** The least positive Number is 2^(-1074); every finite Number is an
    integer multiple of it. *)
Definition quantum : positive := 2 ^ 1074.

Definition in_quanta (x : number) : option Z :=
  match x with
  | S754_zero _ => Some 0
  | S754_finite s m e =>
      Some ((if s then - Zpos m else Zpos m) * 2 ^ (e + 1074))
  | _ => None
  end.

(** The rational that a finite Number is. *)
Definition real_value (x : number) : option Q :=
  match in_quanta x with
  | Some z => Some (Qmake z quantum)
  | None => None
  end.

(** [x] is a finite Number in the interval [[lo, hi]]. *)
Definition within (lo hi : Z) (x : number) : Prop :=
  exists q, real_value x = Some q /\
            (inject_Z lo <= q)%Q /\ (q <= inject_Z hi)%Q.


(** A coordinate supplied as a Number is that Number; supplied as a
    String it is what the String parses to once trimmed. *)
Inductive denotes : value -> number -> Prop :=
  | denotes_number x : denotes (JNum x) x
  | denotes_string s : denotes (JStr s) (parseFloat (trim s)).


(** A value is genuine when the Number it holds, if it holds one, is
    well formed. *)
Definition genuine (v : value) : Prop :=
  match v with JNum x => well_formed x | _ => True end.

(** A coordinate that is absent, null or the empty String. *)
Definition absent (v : value) : Prop :=
  v = JUndefined \/ v = JNull \/ v = JStr "".

(** *** Decimal literals *)

















(** *** The school validator as the specification words it *)

Section Collation.

Variable sql_eq : string -> string -> bool.

(** Name, then address, then the coordinate checks delegated to the
    coordinate validator with its failure handed on unchanged, then the
    duplicate check. *)
Definition validate_school (sd : schoolData) (h : handle) : M validation :=
  if bad_text 3 (name sd) then ret (Invalid msg_name)
  else if bad_text 5 (address sd) then ret (Invalid msg_address)
  else
    match validateCoordinates (latitude sd) (longitude sd) with
    | Invalid m => ret (Invalid m)
    | Valid lat lon =>
        bind (duplicate_check sql_eq h (string_of (name sd))
                (string_of (address sd)))
          (fun r =>
             match r with
             | Some v => ret v
             | None => ret (Valid lat lon)
             end)
    end.

End Collation.

(** The checks that need no store, in the order the specification lists
    them, each with the failure it reports. *)
Definition ordered_checks (sd : schoolData) : list (bool * string) :=
  [ (bad_text 3 (name sd), msg_name);
    (bad_text 5 (address sd), msg_address);
    (coordinates_missing (latitude sd) (longitude sd), msg_required);
    (bad_latitude (parse_if_string (latitude sd)), msg_latitude);
    (bad_longitude (parse_if_string (longitude sd)), msg_longitude) ].

Definition first_failure (checks : list (bool * string)) : option string :=
  match find fst checks with
  | Some (_, m) => Some m
  | None => None
  end.

(** The statements of a log that are inserts. *)
Definition inserts (log : list statement) : list statement :=
  filter (fun q => match q with InsertSchool _ _ _ _ => true | _ => false end)
         log.


(** A submission whose name has a leading space, and the row that the
    create path stores for it. *)
Definition oak : schoolData :=
  mkSchoolData (JStr " Oak School") (JStr "1 Main St")
    (JNum (of_Z 1)) (JNum (of_Z 1)).

Definition oak_row (i : Z) : school :=
  mkSchool i " Oak School" "1 Main St" (of_Z 1) (of_Z 1).

(** *** Ranking *)


(** The distance of a ranked record from the reference point, before any
    rounding. *)
Definition true_distance (userLat userLon : R) (r : Proximity.ranked) : R :=
  Proximity.calculateDistance userLat userLon
    (Proximity.latitude (Proximity.row r))
    (Proximity.longitude (Proximity.row r)).

Definition ascending {A} (f : A -> R) (l : list A) : Prop :=
  StronglySorted (fun a b => (f a <= f b)%R) l.


End Spec.

(* ================================================================= *)
(** ** The query path *)

Module Listing.
Import JS Validator Store.
Local Open Scope string_scope.

(** The real number that a finite Number is.  The engine is handed finite
    Numbers only: [validateCoordinates] returns no other, and a numeric
    column holds no NaN and no infinity; [0] stands for those. *)
Definition to_real (x : number) : R :=
  match x with
  | S754_finite s m e =>
      ((if s then -1 else 1) * IZR (Zpos m) * powerRZ 2 e)%R
  | _ => 0%R
  end.

(** The real number that a value holds when it is a Number. *)
Definition as_real (v : value) : R :=
  match v with JNum x => to_real x | _ => 0%R end.

(** A fetched row, as the engine reads it. *)
Definition located (r : school) : Proximity.school :=
  Proximity.mkSchool (school_id r) (school_name r) (school_address r)
    (to_real (school_latitude r)) (to_real (school_longitude r)).

(** The responses of the query path: [res.status(..).json(..)]. *)
Inductive response : Type :=
  | ValidationFailed (error : string)
  | Listed (userLat userLon : value) (totalSchools : nat)
           (schools : list Proximity.ranked)
  | InternalError.

Definition status (r : response) : Z :=
  match r with
  | ValidationFailed _ => 400
  | Listed _ _ _ _ => 200
  | InternalError => 500
  end.

(** [listSchools], at the [latitude] and [longitude] of [req.query]. *)
Definition listSchools (latitude longitude : value) : M response :=
  try_catch
    (match validateCoordinates latitude longitude with
     | Invalid message => ret (ValidationFailed message)
     | Valid userLat userLon =>
         schools <- select_all ;;
         let schoolsWithDistance :=
           Proximity.rankSchools (as_real userLat) (as_real userLon)
             (map located schools) in
         ret (Listed userLat userLon (List.length schoolsWithDistance)
                schoolsWithDistance)
     end)
    (ret InternalError).

End Listing.

(* ================================================================= *)
(** ** Further vocabulary *)

Module Notions.
Import JS Validator Store.
Local Open Scope string_scope.
Local Open Scope bool_scope.


(** Strings made of white space. *)
Fixpoint blank (w : string) : bool :=
  match w with
  | EmptyString => true
  | String c r => is_whitespace c && blank r
  end.

(** Strings without white space. *)
Fixpoint solid (p : string) : bool :=
  match p with
  | EmptyString => true
  | String c r => negb (is_whitespace c) && solid r
  end.

(** A submission whose name and address are Strings without surrounding
    white space. *)
Definition tidy (b : schoolData) : Prop :=
  exists n a, name b = JStr n /\ address b = JStr a /\
              trim n = n /\ trim a = a.

(** A submission that passes the field checks, with surrounding white
    space, and one with the same trimmed name and address and other
    coordinates. *)
Definition elm : schoolData :=
  mkSchoolData (JStr "Elm School") (JStr "9 High St")
    (JStr " 51.5 ") (JNum (of_Z 0)).

Definition elm_again : schoolData :=
  mkSchoolData (JStr "  Elm School ") (JStr " 9 High St")
    (JNum (of_Z 10)) (JStr "20").

(** A store that holds the first of them. *)
Definition elm_db : db :=
  mkDb [mkSchool 1 "Elm School" "9 High St" (parseFloat "51.5") (of_Z 0)]
       2 [] (fun _ => false).

(** A store that fails on every statement, and one that fails on the
    second statement it receives. *)
Definition down_db : db := mkDb [] 1 [] (fun _ => true).

End Notions.

(* ================================================================= *)
(** ** Numbers: comparison is comparison of values *)

Import JS Validator Spec.
Local Open Scope Z_scope.
Local Open Scope bool_scope.

Lemma digits2_size m : digits2_pos m = Pos.size m.
Proof. induction m; simpl; congruence. Qed.

(** Shape of a well-formed finite Number. *)
Lemma bounded_shape m e :
  SpecFloat.bounded prec emax m e = true ->
  -1074 <= e /\ Zpos m < 2 ^ 53 /\ (-1074 < e -> 2 ^ 52 <= Zpos m).
Proof.
  unfold SpecFloat.bounded, canonical_mantissa, fexp, emin, prec, emax.
  rewrite andb_true_iff, Z.eqb_eq, Z.leb_le, digits2_size.
  intros [Hc _].
  pose proof (Pos.size_gt m) as Hgt.
  pose proof (Pos.size_le m) as Hle.
  assert (Hgt' : Zpos m < 2 ^ Zpos (Pos.size m)).
  { rewrite <- Pos2Z.inj_pow. apply Pos2Z.pos_lt_pos. exact Hgt. }
  assert (Hle' : 2 ^ Zpos (Pos.size m) <= 2 * Zpos m).
  { rewrite <- Pos2Z.inj_pow. change (2 * Zpos m) with (Zpos m~0).
    apply Pos2Z.pos_le_pos. exact Hle. }
  split; [lia|]. split.
  - assert (Zpos (Pos.size m) <= 53) by lia.
    eapply Z.lt_le_trans; [exact Hgt'|]. apply Z.pow_le_mono_r; lia.
  - intros He. assert (Zpos (Pos.size m) = 53) by lia.
    rewrite H in Hle'. change (2 ^ 53) with (2 * 2 ^ 52) in Hle'. lia.
Qed.

Lemma pow_quanta_pos e : -1074 <= e -> 0 < 2 ^ (e + 1074).
Proof. intros. apply Z.pow_pos_nonneg; lia. Qed.

Lemma magnitude_lt m1 e1 m2 e2 :
  SpecFloat.bounded prec emax m1 e1 = true -> SpecFloat.bounded prec emax m2 e2 = true ->
  e1 < e2 -> Zpos m1 * 2 ^ (e1 + 1074) < Zpos m2 * 2 ^ (e2 + 1074).
Proof.
  intros H1 H2 Hlt.
  destruct (bounded_shape _ _ H1) as (He1 & Hm1 & _).
  destruct (bounded_shape _ _ H2) as (He2 & _ & Hm2).
  specialize (Hm2 ltac:(lia)).
  pose proof (pow_quanta_pos e1 He1) as Hp.
  replace (e2 + 1074) with ((e1 + 1074) + (e2 - e1)) by lia.
  rewrite (Z.pow_add_r 2 (e1 + 1074) (e2 - e1)) by lia.
  assert (2 <= 2 ^ (e2 - e1)).
  { change 2 with (2 ^ 1) at 1. apply Z.pow_le_mono_r; lia. }
  change (2 ^ 53) with (2 * 2 ^ 52) in Hm1.
  set (p := 2 ^ (e1 + 1074)) in *. set (q := 2 ^ (e2 - e1)) in *.
  set (h := 2 ^ 52) in *.
  assert (Hh : 0 < h) by reflexivity.
  clearbody p q h.
  apply Z.lt_le_trans with (2 * h * p).
  - apply Z.mul_lt_mono_pos_r; assumption.
  - replace (Z.pos m2 * (p * q)) with (q * Z.pos m2 * p) by ring.
    apply Z.mul_le_mono_nonneg_r; [lia|].
    apply Z.mul_le_mono_nonneg; lia.
Qed.

Lemma magnitude_compare m1 e1 m2 e2 :
  SpecFloat.bounded prec emax m1 e1 = true -> SpecFloat.bounded prec emax m2 e2 = true ->
  (Zpos m1 * 2 ^ (e1 + 1074) ?= Zpos m2 * 2 ^ (e2 + 1074)) =
  match e1 ?= e2 with
  | Lt => Lt
  | Gt => Gt
  | Eq => Pos.compare_cont Eq m1 m2
  end.
Proof.
  intros H1 H2.
  destruct (Z.compare_spec e1 e2) as [He|He|He].
  - subst e2. destruct (bounded_shape _ _ H1) as (He1 & _).
    pose proof (pow_quanta_pos e1 He1).
    change (Pos.compare_cont Eq m1 m2) with (Z.pos m1 ?= Z.pos m2).
    destruct (Z.compare_spec (Z.pos m1) (Z.pos m2)) as [Hm|Hm|Hm].
    + rewrite Hm. apply Z.compare_refl.
    + apply Z.compare_lt_iff. now apply Z.mul_lt_mono_pos_r.
    + apply Z.compare_gt_iff. now apply Z.mul_lt_mono_pos_r.
  - apply Z.compare_lt_iff. now apply magnitude_lt.
  - apply Z.compare_gt_iff. now apply magnitude_lt.
Qed.

(** On well-formed Numbers the comparison of the language is the
    comparison of values. *)
Lemma compare_quanta x y a b :
  well_formed x -> well_formed y ->
  in_quanta x = Some a -> in_quanta y = Some b ->
  SFcompare x y = Some (a ?= b).
Proof.
  unfold well_formed.
  destruct x as [sx|sx| |sx mx ex], y as [sy|sy| |sy my ey];
    simpl; intros Hx Hy Ha Hb; try discriminate;
    injection Ha as <-; injection Hb as <-; rewrite <- ?Pos2Z.opp_pos.
  - reflexivity.
  - destruct (bounded_shape _ _ Hy) as (He & _).
    pose proof (pow_quanta_pos ey He).
    f_equal. symmetry. destruct sy.
    + apply Z.compare_gt_iff. nia.
    + apply Z.compare_lt_iff. nia.
  - destruct (bounded_shape _ _ Hx) as (He & _).
    pose proof (pow_quanta_pos ex He).
    f_equal. symmetry. destruct sx.
    + apply Z.compare_lt_iff. nia.
    + apply Z.compare_gt_iff. nia.
  - destruct (bounded_shape _ _ Hx) as (Hex & _).
    destruct (bounded_shape _ _ Hy) as (Hey & _).
    pose proof (pow_quanta_pos ex Hex).
    pose proof (pow_quanta_pos ey Hey).
    f_equal. destruct sx, sy.
    + rewrite !Z.mul_opp_l, Z.compare_opp.
      rewrite (magnitude_compare my ey mx ex) by assumption.
      rewrite (Z.compare_antisym ey ex).
      destruct (ey ?= ex); simpl; try reflexivity.
      rewrite Pos.compare_cont_antisym. reflexivity.
    + symmetry. apply Z.compare_lt_iff. nia.
    + symmetry. apply Z.compare_gt_iff. nia.
    + symmetry. now apply magnitude_compare.
Qed.


Lemma quantum_eq : Zpos quantum = 2 ^ 1074.
Proof. unfold quantum. now rewrite Pos2Z.inj_pow. Qed.

Lemma real_value_in_quanta x q :
  real_value x = Some q -> exists a, in_quanta x = Some a /\ q = Qmake a quantum.
Proof.
  unfold real_value. destruct (in_quanta x) as [a|]; [|discriminate].
  intros [= <-]. now exists a.
Qed.

(** The range test of the validators, at a well-formed Number and
    integer bounds, is membership of the value in the interval. *)
Lemma not_in_range_within L H lo hi x :
  well_formed x -> well_formed L -> well_formed H ->
  in_quanta L = Some (lo * 2 ^ 1074) -> in_quanta H = Some (hi * 2 ^ 1074) ->
  not_in_range L H (JNum x) = false <-> within lo hi x.
Proof.
  intros Wx WL WH HL HH. unfold within, not_in_range, lt, gt, SFltb.
  set (cl := lo * 2 ^ 1074) in *. set (ch := hi * 2 ^ 1074) in *.
  destruct (in_quanta x) as [a|] eqn:Ha.
  - rewrite (compare_quanta x L _ _ Wx WL Ha HL).
    rewrite (compare_quanta H x _ _ WH Wx HH Ha).
    assert (isNaN x = false /\ isFinite x = true) as [-> ->]
      by (destruct x; try discriminate; now split).
    unfold real_value. rewrite Ha.
    assert (Hq : (inject_Z lo <= Qmake a quantum)%Q <-> cl <= a).
    { unfold Qle, cl; simpl. rewrite quantum_eq. lia. }
    assert (Hq' : (Qmake a quantum <= inject_Z hi)%Q <-> a <= ch).
    { unfold Qle, ch; simpl. rewrite quantum_eq. lia. }
    clearbody cl ch.
    split.
    + intros Hc. exists (Qmake a quantum). split; [reflexivity|].
      rewrite Hq, Hq'.
      destruct (Z.compare_spec a cl); destruct (Z.compare_spec ch a);
        simpl in Hc; try discriminate; lia.
    + intros (q & [= <-] & H1 & H2). rewrite Hq in H1. rewrite Hq' in H2.
      destruct (Z.compare_spec a cl); destruct (Z.compare_spec ch a);
        try reflexivity; lia.
  - split.
    + destruct x; try discriminate; simpl; discriminate.
    + intros (q & Hq & _). unfold real_value in Hq. rewrite Ha in Hq.
      discriminate.
Qed.

Lemma bad_latitude_within x :
  well_formed x -> bad_latitude (JNum x) = false <-> within (-90) 90 x.
Proof.
  intros Wx. apply not_in_range_within; trivial; vm_compute; reflexivity.
Qed.

Lemma bad_longitude_within x :
  well_formed x -> bad_longitude (JNum x) = false <-> within (-180) 180 x.
Proof.
  intros Wx. apply not_in_range_within; trivial; vm_compute; reflexivity.
Qed.





(* ================================================================= *)
(** ** Numbers: rounding stays in the format *)

(** The number of binary digits, by bounds. *)
Lemma digits_bounds p :
  2 ^ Zpos (digits2_pos p) <= 2 * Zpos p /\ Zpos p < 2 ^ Zpos (digits2_pos p).
Proof.
  rewrite digits2_size. split.
  - rewrite <- Pos2Z.inj_pow. change (2 * Zpos p) with (Zpos p~0).
    apply Pos2Z.pos_le_pos. apply Pos.size_le.
  - rewrite <- Pos2Z.inj_pow. apply Pos2Z.pos_lt_pos. apply Pos.size_gt.
Qed.

Lemma Zdigits2_nonneg m : 0 <= Zdigits2 m.
Proof. destruct m; simpl; lia. Qed.

Lemma Zdigits2_upper m : 0 <= m -> m < 2 ^ Zdigits2 m.
Proof.
  destruct m as [|p|p]; simpl; intros H; try lia.
  apply digits_bounds.
Qed.

Lemma Zdigits2_lower m : 0 < m -> 2 ^ (Zdigits2 m - 1) <= m.
Proof.
  destruct m as [|p|p]; intros H; try lia. unfold Zdigits2.
  destruct (digits_bounds p) as [Hl _].
  replace (Zpos (digits2_pos p)) with (Zpos (digits2_pos p) - 1 + 1) in Hl by lia.
  rewrite Z.pow_add_r in Hl by lia. change (2 ^ 1) with 2 in Hl. lia.
Qed.

(** [m < 2^k] bounds the digits by [k]; [2^(k-1) <= m] bounds them from
    below. *)
Lemma Zdigits2_le m k : 0 <= k -> 0 <= m < 2 ^ k -> Zdigits2 m <= k.
Proof.
  intros Hk [H0 Hm].
  destruct (Z.eq_dec m 0) as [->|Hz]; [simpl; lia|].
  pose proof (Zdigits2_lower m ltac:(lia)) as Hl.
  pose proof (Zdigits2_nonneg m).
  destruct (Z.le_gt_cases (Zdigits2 m) k) as [|Hgt]; [assumption|].
  assert (2 ^ k <= 2 ^ (Zdigits2 m - 1)) by (apply Z.pow_le_mono_r; lia).
  lia.
Qed.

Lemma Zdigits2_ge m k : 0 <= m -> 2 ^ (k - 1) <= m -> k <= Zdigits2 m.
Proof.
  intros H0 Hm.
  pose proof (Zdigits2_upper m H0) as Hu.
  pose proof (Zdigits2_nonneg m).
  destruct (Z.le_gt_cases k (Zdigits2 m)) as [|Hgt]; [assumption|].
  assert (2 ^ Zdigits2 m <= 2 ^ (k - 1)) by (apply Z.pow_le_mono_r; lia).
  lia.
Qed.

(** Shifting a record right halves its mantissa. *)
Lemma shr_1_m r : 0 <= shr_m r -> shr_m (shr_1 r) = shr_m r / 2.
Proof.
  destruct r as [m b s]; cbn [shr_m]. intros H.
  rewrite <- Z.div2_div.
  destruct m as [|[p|p|]|p]; try reflexivity; lia.
Qed.

Lemma shr_iter_m p : forall r,
  0 <= shr_m r -> shr_m (SpecFloat.iter_pos shr_1 p r) = shr_m r / 2 ^ Zpos p.
Proof.
  assert (Hnn : forall r, 0 <= shr_m r -> 0 <= shr_m r / 2)
    by (intros; apply Z.div_pos; lia).
  induction p as [p IH|p IH|]; intros r Hr; simpl SpecFloat.iter_pos.
  - assert (H1 : 0 <= shr_m (shr_1 r)) by (rewrite shr_1_m; auto).
    assert (H2 : 0 <= shr_m (SpecFloat.iter_pos shr_1 p (shr_1 r))).
    { rewrite IH by assumption. apply Z.div_pos; [assumption|].
      apply Z.pow_pos_nonneg; lia. }
    rewrite IH, IH, shr_1_m by assumption.
    rewrite !Z.div_div by (try apply Z.pow_pos_nonneg; lia).
    f_equal. change 2 with (2 ^ 1) at 1.
    rewrite <- !Z.pow_add_r by lia. f_equal. lia.
  - assert (H2 : 0 <= shr_m (SpecFloat.iter_pos shr_1 p r)).
    { rewrite IH by assumption. apply Z.div_pos; [assumption|].
      apply Z.pow_pos_nonneg; lia. }
    rewrite IH, IH by assumption.
    rewrite !Z.div_div by (try apply Z.pow_pos_nonneg; lia).
    f_equal. rewrite <- Z.pow_add_r by lia. f_equal. lia.
  - now apply shr_1_m.
Qed.

Lemma shr_record_of_loc_m m l : shr_m (shr_record_of_loc m l) = m.
Proof. destruct l as [|[]]; reflexivity. Qed.

(** The exponent function of binary64. *)
Lemma fexp_eq k : fexp prec emax k = Z.max (k - 53) (-1074).
Proof. reflexivity. Qed.

(** [shr_fexp] on a mantissa that has bits to spare: the exponent becomes
    the one of the format and the mantissa is divided accordingly. *)
Lemma shr_fexp_spec m e l :
  0 <= m -> e <= fexp prec emax (Zdigits2 m + e) ->
  let e' := fexp prec emax (Zdigits2 m + e) in
  snd (shr_fexp prec emax m e l) = e' /\
  shr_m (fst (shr_fexp prec emax m e l)) = m / 2 ^ (e' - e).
Proof.
  intros Hm He e'. unfold shr_fexp, shr. fold e'.
  destruct (e' - e) as [|p|p] eqn:En; simpl.
  - split; [lia|]. rewrite shr_record_of_loc_m. now rewrite Z.div_1_r.
  - split; [lia|]. rewrite shr_iter_m; rewrite shr_record_of_loc_m; trivial.
  - lia.
Qed.

Lemma round_nearest_even_range m l :
  round_nearest_even m l = m \/ round_nearest_even m l = m + 1.
Proof.
  destruct l as [|[]]; simpl; auto. destruct (Z.even m); auto.
Qed.

(** The mantissa after the first shift: below 2^53, and at least 2^52
    unless the exponent is the least one. *)
Lemma first_shift_range m e :
  0 <= m -> e <= fexp prec emax (Zdigits2 m + e) ->
  let e' := fexp prec emax (Zdigits2 m + e) in
  let m1 := m / 2 ^ (e' - e) in
  -1074 <= e' /\ 0 <= m1 < 2 ^ 53 /\ (2 ^ 52 <= m1 \/ e' = -1074).
Proof.
  intros Hm He e' m1. subst m1 e'. rewrite fexp_eq in *.
  set (d := Zdigits2 m) in *.
  pose proof (Zdigits2_upper m Hm) as Hu. fold d in Hu.
  pose proof (Zdigits2_nonneg m) as Hd. fold d in Hd.
  set (n := Z.max (d + e - 53) (-1074) - e) in *.
  assert (Hn : 0 <= n) by (unfold n; lia).
  assert (Hp : 0 < 2 ^ n) by (apply Z.pow_pos_nonneg; lia).
  split; [lia|]. split; [split|].
  - apply Z.div_pos; lia.
  - apply Z.div_lt_upper_bound; [assumption|].
    rewrite <- Z.pow_add_r by lia.
    eapply Z.lt_le_trans; [exact Hu|]. apply Z.pow_le_mono_r; lia.
  - destruct (Z.eq_dec (Z.max (d + e - 53) (-1074)) (-1074)) as [E|E];
      [now right|left].
    assert (En : n = d - 53) by (unfold n; lia).
    assert (Hm0 : 0 < m).
    { destruct (Z.eq_dec m 0) as [->|]; [|lia]. unfold d in *. simpl in *. lia. }
    pose proof (Zdigits2_lower m Hm0) as Hl. fold d in Hl.
    apply Z.div_le_lower_bound; [assumption|].
    rewrite <- Z.pow_add_r by lia.
    replace (n + 52) with (d - 1) by lia. exact Hl.
Qed.

Lemma canonical_in_range (m : positive) e :
  -1074 <= e -> Zpos m < 2 ^ 53 -> (2 ^ 52 <= Zpos m \/ e = -1074) ->
  canonical_mantissa prec emax m e = true.
Proof.
  intros He Hu Hl. unfold canonical_mantissa. apply Z.eqb_eq.
  rewrite fexp_eq.
  assert (Hd : Zpos (digits2_pos m) <= 53)
    by (apply (Zdigits2_le (Zpos m) 53); lia).
  destruct Hl as [Hl| ->]; [|lia].
  assert (53 <= Zpos (digits2_pos m))
    by (apply (Zdigits2_ge (Zpos m) 53); [lia|exact Hl]).
  lia.
Qed.

(** Rounding a mantissa that has bits to spare gives a Number of the
    format. *)
Lemma binary_round_aux_valid sx mx ex lx :
  0 <= mx -> ex <= fexp prec emax (Zdigits2 mx + ex) ->
  valid_binary prec emax (binary_round_aux prec emax sx mx ex lx) = true.
Proof.
  intros Hm He. unfold binary_round_aux.
  destruct (shr_fexp_spec mx ex lx Hm He) as [E1 E2].
  destruct (first_shift_range mx ex Hm He) as (He' & Hm1 & Hlow).
  destruct (shr_fexp prec emax mx ex lx) as [mrs' e'] eqn:S1.
  simpl in E1, E2. rewrite <- E1 in E2, He', Hm1, Hlow.
  rewrite <- E2 in Hm1, Hlow. clear E1 E2 S1.
  set (m2 := round_nearest_even (shr_m mrs') (loc_of_shr_record mrs')).
  assert (Hm2 : m2 = shr_m mrs' \/ m2 = shr_m mrs' + 1)
    by apply round_nearest_even_range.
  destruct (Z.eq_dec m2 (2 ^ 53)) as [Etop|Ntop].
  - (* the mantissa overflowed to 2^53: one more shift *)
    rewrite Etop.
    assert (Ee : fexp prec emax (Zdigits2 (2 ^ 53) + e') = e' + 1)
      by (rewrite fexp_eq; change (Zdigits2 (2 ^ 53)) with 54; lia).
    unfold shr_fexp, shr. rewrite Ee.
    replace (e' + 1 - e') with 1 by lia. simpl.
    destruct (e' + 1 <=? 971) eqn:Eb; [|reflexivity].
    simpl. unfold SpecFloat.bounded. rewrite andb_true_iff. split.
    + apply canonical_in_range; [lia| reflexivity | left; discriminate].
    + exact Eb.
  - assert (Hr : 0 <= m2 < 2 ^ 53) by lia.
    assert (Hl2 : 2 ^ 52 <= m2 \/ e' = -1074) by lia.
    assert (Ee : 0 < m2 -> fexp prec emax (Zdigits2 m2 + e') = e').
    { intros Hpos. rewrite fexp_eq.
      assert (Zdigits2 m2 <= 53) by (apply Zdigits2_le; lia).
      destruct Hl2 as [Hl2| ->]; [|lia].
      assert (53 <= Zdigits2 m2) by (apply Zdigits2_ge; [lia|exact Hl2]).
      lia. }
    destruct m2 as [|p|p] eqn:Em; try lia.
    + unfold shr_fexp, shr. simpl Zdigits2.
      destruct (fexp prec emax (0 + e') - e') as [|q|q]; simpl.
      * reflexivity.
      * rewrite shr_iter_m by (simpl; lia). simpl. reflexivity.
      * reflexivity.
    + specialize (Ee ltac:(lia)).
      unfold shr_fexp, shr. rewrite Ee. rewrite Z.sub_diag. simpl.
      destruct (e' <=? 971) eqn:Eb; [|reflexivity].
      simpl. unfold SpecFloat.bounded. rewrite andb_true_iff. split.
      * apply canonical_in_range; lia.
      * exact Eb.
Qed.

Lemma digits_shift_left n : forall m,
  Zpos (digits2_pos (Pos.iter xO m n)) = Zpos (digits2_pos m) + Zpos n.
Proof.
  induction n as [|n IH] using Pos.peano_ind; intros m.
  - simpl. lia.
  - rewrite Pos.iter_succ. simpl digits2_pos. rewrite Pos2Z.inj_succ, IH. lia.
Qed.

Lemma binary_round_valid sx mx ex :
  valid_binary prec emax (binary_round prec emax sx mx ex) = true.
Proof.
  unfold binary_round, shl_align.
  set (e' := fexp prec emax (Zpos (digits2_pos mx) + ex)).
  destruct (e' - ex) as [|d|d] eqn:Ed.
  - apply binary_round_aux_valid; [lia|]. simpl Zdigits2. fold e'. lia.
  - apply binary_round_aux_valid; [lia|]. simpl Zdigits2. fold e'. lia.
  - apply binary_round_aux_valid; [lia|]. simpl Zdigits2.
    rewrite digits_shift_left.
    replace (Zpos (digits2_pos mx) + Zpos d + e')
      with (Zpos (digits2_pos mx) + ex) by lia.
    fold e'. lia.
Qed.

Lemma fexp_monotone a b : a <= b -> fexp prec emax a <= fexp prec emax b.
Proof. rewrite !fexp_eq. lia. Qed.

(** The quotient of the division core has bits to spare. *)
Lemma SFdiv_core_binary_spare (m1 m2 : positive) :
  let '(q, e', l) := SFdiv_core_binary prec emax (Zpos m1) 0 (Zpos m2) 0 in
  0 <= q /\ e' <= fexp prec emax (Zdigits2 q + e').
Proof.
  unfold SFdiv_core_binary.
  set (d1 := Zdigits2 (Zpos m1)). set (d2 := Zdigits2 (Zpos m2)).
  set (e' := Z.min (fexp prec emax (d1 + 0 - (d2 + 0))) (0 - 0)).
  set (s := 0 - 0 - e').
  assert (Hs : 0 <= s) by (unfold s, e'; lia).
  set (m' := match s with Z.pos _ => Z.shiftl (Zpos m1) s | 0 => Zpos m1
                        | Z.neg _ => 0 end).
  assert (Em : m' = Zpos m1 * 2 ^ s).
  { unfold m'. clearbody s. destruct s as [|p|p]; try lia.
    now rewrite Z.shiftl_mul_pow2 by lia. }
  clearbody m'.
  assert (Hp : 0 < 2 ^ s) by (apply Z.pow_pos_nonneg; lia).
  pose proof (Z.div_eucl_eq m' (Zpos m2) ltac:(lia)) as Hdiv.
  pose proof (Z.mod_pos_bound m' (Zpos m2) ltac:(lia)) as Hmod.
  unfold Z.modulo in Hmod.
  assert (Hq : fst (Z.div_eucl m' (Zpos m2)) = m' / Zpos m2) by reflexivity.
  destruct (Z.div_eucl m' (Zpos m2)) as [q r]. simpl in Hq. subst q.
  assert (Hq0 : 0 <= m' / Zpos m2) by (apply Z.div_pos; nia).
  split; [assumption|].
  eapply Z.le_trans; [apply Z.le_min_l|].
  apply fexp_monotone.
  (* the quotient has at least d1 + s - d2 digits *)
  assert (Hd : d1 + s - d2 <= Zdigits2 (m' / Zpos m2)).
  { pose proof (Zdigits2_nonneg (m' / Zpos m2)).
    destruct (Z.le_gt_cases (d1 + s - d2) 0) as [|Hpos]; [lia|].
    apply Zdigits2_ge; [assumption|].
    apply Z.div_le_lower_bound; [lia|].
    pose proof (Zdigits2_upper (Zpos m2) ltac:(lia)) as H2. fold d2 in H2.
    pose proof (Zdigits2_lower (Zpos m1) ltac:(lia)) as H1. fold d1 in H1.
    pose proof (Zdigits2_nonneg (Zpos m2)) as H2n. fold d2 in H2n.
    assert (Hd1 : 1 <= d1) by (unfold d1; simpl; lia).
    rewrite Em.
    apply Z.le_trans with (2 ^ d2 * 2 ^ (d1 + s - d2 - 1)).
    - apply Z.mul_le_mono_nonneg_r; [apply Z.pow_nonneg|]; lia.
    - rewrite <- Z.pow_add_r by lia.
      replace (d2 + (d1 + s - d2 - 1)) with ((d1 - 1) + s) by lia.
      rewrite Z.pow_add_r by lia.
      apply Z.mul_le_mono_nonneg_r; lia. }
  unfold s in Hd. lia.
Qed.

Lemma decimal_to_number_valid sg m e :
  valid_binary prec emax (decimal_to_number sg m e) = true.
Proof.
  unfold decimal_to_number. destruct m as [|p|p]; try reflexivity.
  destruct e as [|k|k]; try apply binary_round_valid.
  assert (E : exists t, Z.pow_pos 10 k = Zpos t).
  { exists (10 ^ k)%positive. now rewrite Pos2Z.inj_pow. }
  destruct E as [t ->].
  pose proof (SFdiv_core_binary_spare p t) as H.
  destruct (SFdiv_core_binary prec emax (Zpos p) 0 (Zpos t) 0) as [[q e2] l].
  destruct H as [H1 H2]. now apply binary_round_aux_valid.
Qed.

(** Every result of [parseFloat] is a Number of the format. *)
Lemma parseFloat_well_formed s : well_formed (parseFloat s).
Proof.
  unfold well_formed, parseFloat.
  destruct (take_sign (trimStart s)) as [sg r].
  unfold unsigned_literal.
  destruct (String.prefix "Infinity" r); [reflexivity|].
  destruct (span_digits r) as [ip s2].
  destruct (fraction_part s2) as [fp s3].
  destruct (ip ++ fp)%string; [reflexivity|].
  apply decimal_to_number_valid.
Qed.

(* ================================================================= *)
(** ** Strings: [parseFloat] reads the literal at the head *)

Local Open Scope string_scope.
Local Open Scope Z_scope.



Lemma take_sign_other c r :
  c <> "+"%char -> c <> "-"%char -> take_sign (String c r) = (false, String c r).
Proof.
  destruct c as [[] [] [] [] [] [] [] []]; intros H1 H2;
    try reflexivity; congruence.
Qed.

Lemma fraction_part_other c r :
  c <> "."%char -> fraction_part (String c r) = ("", String c r).
Proof.
  destruct c as [[] [] [] [] [] [] [] []]; intros H; try reflexivity; congruence.
Qed.













(* ================================================================= *)
(** ** The coordinate validator *)


Lemma coordinates_missing_absent latitude longitude :
  coordinates_missing latitude longitude = true <->
  absent latitude \/ absent longitude.
Proof.
  unfold coordinates_missing, absent. split.
  - rewrite !orb_true_iff.
    intros [[[[[H|H]|H]|H]|H]|H];
      [left|right|left|right|left|right];
      match type of H with
      | is_undefined ?v = _ => destruct v; try discriminate; auto
      | is_null ?v = _ => destruct v; try discriminate; auto
      | is_empty_string ?v = _ =>
          destruct v; try discriminate; simpl in H;
          apply String.eqb_eq in H; subst; auto
      end.
  - intros [[-> | [-> | ->]] | [-> | [-> | ->]]]; simpl;
      rewrite ?orb_true_r; reflexivity.
Qed.



Lemma denotes_well_formed v x : genuine v -> denotes v x -> well_formed x.
Proof.
  intros G D. destruct D; [exact G|apply parseFloat_well_formed].
Qed.












(* ================================================================= *)
(** ** The school validator and the create path *)

Import Store.

Section StoreFacts.

Variable sql_eq : string -> string -> bool.

(** The duplicate check always returns (a failure of the store is caught
    inside it) and inserts nothing. *)
Lemma duplicate_check_returns h n a d :
  exists r d', duplicate_check sql_eq h n a d = (Returned r, d') /\
               rows d' = rows d /\ next_id d' = next_id d /\
               inserts (sent d') = inserts (sent d).
Proof.
  unfold duplicate_check, try_catch, bind, select_by_name_address, send, ret.
  destruct h.
  - now exists (Some (Invalid msg_no_database)), d.
  - destruct (fault d (List.length (sent d))); simpl.
    + eexists _, _. split; [reflexivity|]. now simpl.
    + destruct (0 <? _); eexists _, _; (split; [reflexivity|]); now simpl.
Qed.

Lemma validateSchoolData_returns sd h d :
  exists v d', validateSchoolData sql_eq sd h d = (Returned v, d') /\
               rows d' = rows d /\ next_id d' = next_id d /\
               inserts (sent d') = inserts (sent d).
Proof.
  unfold validateSchoolData.
  repeat match goal with
         | |- context [if ?b then _ else _] =>
             destruct b; [now eexists _, d|]
         end.
  unfold bind.
  destruct (duplicate_check_returns h (string_of (name sd))
              (string_of (address sd)) d) as (r & d' & -> & Hd).
  destruct r; now eexists _, d'.
Qed.

(** C5.  On every record, handle and store, the school validator does
    what a validator does that checks the name, checks the address, hands
    the coordinates to [validateCoordinates], passes its failure on
    unchanged and carries its parsed values to the result. *)
Theorem validateSchoolData_delegates sd h d :
  validateSchoolData sql_eq sd h d = validate_school sql_eq sd h d.
Proof.
  unfold validateSchoolData, validate_school, validateCoordinates.
  destruct (bad_text 3 (name sd)); [reflexivity|].
  destruct (bad_text 5 (address sd)); [reflexivity|].
  destruct (coordinates_missing (latitude sd) (longitude sd)); [reflexivity|].
  destruct (bad_latitude (parse_if_string (latitude sd))); [reflexivity|].
  destruct (bad_longitude (parse_if_string (longitude sd))); reflexivity.
Qed.

(** C6.  The checks run in the order name, address, coordinates present,
    latitude range, longitude range, duplicate.  When one of the first
    five fails, the result is the failure of the first that does and the
    store is left as it was, no statement having been sent; otherwise the
    result is that of the duplicate check. *)
Theorem validateSchoolData_first_failure sd h d :
  match first_failure (ordered_checks sd) with
  | Some m => validateSchoolData sql_eq sd h d = (Returned (Invalid m), d)
  | None =>
      exists r d',
        duplicate_check sql_eq h (string_of (name sd))
          (string_of (address sd)) d = (Returned r, d') /\
        validateSchoolData sql_eq sd h d =
          (Returned match r with
                    | Some v => v
                    | None => Valid (parse_if_string (latitude sd))
                                (parse_if_string (longitude sd))
                    end, d')
  end.
Proof.
  unfold first_failure, ordered_checks, validateSchoolData; simpl.
  destruct (bad_text 3 (name sd)); [reflexivity|].
  destruct (bad_text 5 (address sd)); [reflexivity|].
  destruct (coordinates_missing (latitude sd) (longitude sd)); [reflexivity|].
  destruct (bad_latitude (parse_if_string (latitude sd))); [reflexivity|].
  destruct (bad_longitude (parse_if_string (longitude sd))); [reflexivity|].
  unfold bind.
  destruct (duplicate_check_returns h (string_of (name sd))
              (string_of (address sd)) d) as (r & d' & E & _).
  exists r, d'. split; [exact E|]. rewrite E. now destruct r.
Qed.

(** C9.  When validation fails, with whatever failure, the create path
    answers with that failure, builds no record and inserts nothing: the
    rows are those from before.  The rows change, or an insert is sent,
    only when validation has succeeded. *)
Theorem addSchool_inserts_only_after_validation body d v d1 :
  validateSchoolData sql_eq body Pool d = (Returned v, d1) ->
  (isValid v = false ->
   exists m, v = Invalid m /\
     addSchool sql_eq body d = (Returned (ValidationFailed m), d1) /\
     rows d1 = rows d /\ inserts (sent d1) = inserts (sent d)) /\
  (forall out d2, addSchool sql_eq body d = (out, d2) ->
     rows d2 <> rows d \/ inserts (sent d2) <> inserts (sent d) ->
     isValid v = true).
Proof.
  intros E.
  destruct (validateSchoolData_returns body Pool d)
    as (v' & d' & E' & Hr & Hn & Hi).
  rewrite E in E'. injection E' as <- <-.
  split.
  - intros Hv. destruct v as [m|lat lon]; [|discriminate].
    exists m. repeat split; try assumption.
    unfold addSchool, try_catch, bind. rewrite E. reflexivity.
  - intros out d2 Ha Hch. destruct v as [m|lat lon]; [|reflexivity].
    unfold addSchool, try_catch, bind in Ha. rewrite E in Ha. simpl in Ha.
    injection Ha as <- <-. destruct Hch as [Hch|Hch]; contradiction.
Qed.

(** A submission is accepted only when it is well typed and the store
    holds no row that matches its trimmed name and address. *)
Lemma validateSchoolData_valid sd d lat lon d1 :
  validateSchoolData sql_eq sd Pool d = (Returned (Valid lat lon), d1) ->
  (exists n a, name sd = JStr n /\ address sd = JStr a) /\
  filter (matches sql_eq (trim (string_of (name sd)))
            (trim (string_of (address sd)))) (rows d) = [] /\
  rows d1 = rows d /\ next_id d1 = next_id d /\ fault d1 = fault d /\
  sent d1 = SelectByNameAddress (trim (string_of (name sd)))
              (trim (string_of (address sd))) :: sent d.
Proof.
  unfold validateSchoolData.
  destruct (bad_text 3 (name sd)) eqn:En; [discriminate|].
  destruct (bad_text 5 (address sd)) eqn:Ea; [discriminate|].
  destruct (coordinates_missing _ _); [discriminate|].
  destruct (bad_latitude _); [discriminate|].
  destruct (bad_longitude _); [discriminate|].
  unfold duplicate_check, try_catch, bind, select_by_name_address, send, ret.
  destruct (fault d (List.length (sent d))); simpl; [discriminate|].
  destruct (filter _ (rows d)) as [|r rs] eqn:Ef; simpl.
  - intros [= <- <- <-]. simpl. repeat split; trivial.
    unfold bad_text in En, Ea.
    destruct (name sd); try (rewrite orb_true_r in En; discriminate).
    destruct (address sd); try (rewrite orb_true_r in Ea; discriminate).
    now eexists _, _.
  - discriminate.
Qed.

(** A reachable store that holds a row matching the trimmed name and
    address makes an otherwise good submission fail as a duplicate. *)
Lemma validateSchoolData_rejects_match sd d r :
  first_failure (ordered_checks sd) = None ->
  fault d (List.length (sent d)) = false ->
  In r (rows d) ->
  matches sql_eq (trim (string_of (name sd)))
    (trim (string_of (address sd))) r = true ->
  fst (validateSchoolData sql_eq sd Pool d) = Returned (Invalid msg_duplicate).
Proof.
  unfold first_failure, ordered_checks, validateSchoolData; simpl.
  destruct (bad_text 3 (name sd)); [discriminate|].
  destruct (bad_text 5 (address sd)); [discriminate|].
  destruct (coordinates_missing _ _); [discriminate|].
  destruct (bad_latitude _); [discriminate|].
  destruct (bad_longitude _); [discriminate|].
  intros _ Hf Hin Hm.
  unfold duplicate_check, try_catch, bind, select_by_name_address, send, ret.
  rewrite Hf. simpl.
  assert (Hr : In r (filter (matches sql_eq (trim (string_of (name sd)))
                               (trim (string_of (address sd)))) (rows d)))
    by (apply filter_In; now split).
  destruct (filter _ (rows d)); [destruct Hr|reflexivity].
Qed.

(** C1, at a failing input.  The duplicate check looks for the trimmed
    name among stored names, and the insert stores the name as submitted.
    Under any comparison that tells " Oak School" from "Oak School", the
    same submission with a leading space is created twice from the empty
    store, which leaves two rows with one trimmed name and address. *)
Theorem addSchool_twice_stores_duplicate :
  sql_eq " Oak School" "Oak School" = false ->
  unique_keys empty_db /\
  exists d,
    addSchools sql_eq [oak; oak] empty_db =
      (Returned [Created 1 " Oak School" "1 Main St" (of_Z 1) (of_Z 1);
                 Created 2 " Oak School" "1 Main St" (of_Z 1) (of_Z 1)], d) /\
    rows d = [oak_row 1; oak_row 2] /\
    ~ unique_keys d.
Proof.
  intros H. split; [constructor|].
  eexists. split; [|split].
  - unfold addSchools, addSchool, validateSchoolData, duplicate_check,
      try_catch, bind, select_by_name_address, insert_school, send, ret,
      empty_db, oak; simpl.
    unfold matches; simpl. unfold trim; simpl. rewrite H. simpl. reflexivity.
  - reflexivity.
  - unfold unique_keys; simpl. intros Hn. inversion Hn as [|? ? Hin _].
    apply Hin. now left.
Qed.

End StoreFacts.

Lemma key_not_stored n a l :
  Forall (fun r => trim (school_name r) = school_name r /\
                   trim (school_address r) = school_address r) l ->
  filter (matches String.eqb n a) l = [] ->
  ~ In (n, a) (map key l).
Proof.
  induction 1 as [|r l [Hn Ha] _ IH]; simpl; [tauto|].
  unfold matches at 1.
  destruct (String.eqb_spec (school_name r) n) as [E1|N1];
    destruct (String.eqb_spec (school_address r) a) as [E2|N2];
    simpl; try discriminate; intros Hf [Hk|Hin];
    try (now apply IH);
    unfold key in Hk; rewrite Hn, Ha in Hk; congruence.
Qed.

(** With exact comparison of the columns, a submission whose name and
    address carry no surrounding white space keeps the stored keys
    distinct. *)
Lemma addSchool_keeps_unique_keys n a lat lon d out d' :
  trim n = n -> trim a = a ->
  unique_keys d -> stored_trimmed d ->
  addSchool String.eqb (mkSchoolData (JStr n) (JStr a) lat lon) d = (out, d') ->
  unique_keys d' /\ stored_trimmed d'.
Proof.
  intros Tn Ta Hu Ht.
  set (body := mkSchoolData (JStr n) (JStr a) lat lon).
  destruct (validateSchoolData_returns String.eqb body Pool d)
    as (v & d1 & Ev & Hr & _).
  unfold addSchool, try_catch, bind. rewrite Ev.
  destruct v as [m|la lo]; simpl.
  - intros [= <- <-]. unfold unique_keys, stored_trimmed. now rewrite Hr.
  - apply validateSchoolData_valid in Ev.
    destruct Ev as (_ & Hf & _ & Hid & Hfa & Hs). simpl in Hf.
    rewrite Tn, Ta in Hf.
    unfold insert_school, send, ret.
    destruct (fault d1 (List.length (sent d1))).
    + intros [= <- <-]. unfold unique_keys, stored_trimmed; simpl.
      now rewrite Hr.
    + simpl. intros [= <- <-]. unfold unique_keys, stored_trimmed; simpl.
      rewrite Hr. split.
      * rewrite map_app. simpl.
        apply NoDup_app_remove_l with (l := []). simpl.
        apply Permutation.Permutation_NoDup with (l := key (mkSchool (next_id d1) n a (parseFloat_value lat) (parseFloat_value lon)) :: map key (rows d)).
        { apply Permutation.Permutation_cons_append. }
        constructor; [|exact Hu].
        unfold key; simpl. rewrite Tn, Ta.
        now apply key_not_stored.
      * apply Forall_app. split; [exact Ht|].
        constructor; [|constructor]. simpl. now split.
Qed.

Lemma addSchool_inserts_only_after_validation_witness :
  addSchool String.eqb
    (mkSchoolData (JStr "Oa") (JStr "1 Main St") (JNum (of_Z 1)) (JNum (of_Z 1)))
    empty_db =
  (Returned (ValidationFailed msg_name), empty_db).
Proof.
  destruct (proj1 (addSchool_inserts_only_after_validation String.eqb
                     (mkSchoolData (JStr "Oa") (JStr "1 Main St")
                        (JNum (of_Z 1)) (JNum (of_Z 1)))
                     empty_db (Invalid msg_name) empty_db eq_refl) eq_refl)
    as (m & Hm & Ha & _).
  injection Hm as <-. exact Ha.
Defined.

Lemma addSchool_twice_stores_duplicate_witness :
  exists d, rows d = [oak_row 1; oak_row 2] /\ ~ unique_keys d.
Proof.
  destruct (addSchool_twice_stores_duplicate String.eqb eq_refl)
    as (_ & d & _ & Hr & Hu).
  exists d. split; assumption.
Defined.

(* ================================================================= *)
(** ** The proximity engine *)

Import Proximity.
Local Open Scope R_scope.

(** *** The sort *)

Section SortByKey.

Variable A : Type.
Variable key : A -> R.

Let cmp (a b : A) : R := key a - key b.

Lemma insert_perm x l : Permutation (insert cmp x l) (x :: l).
Proof.
  induction l as [|y l IH]; simpl; [reflexivity|].
  destruct (Rle_dec (cmp x y) 0); [reflexivity|].
  rewrite IH. apply perm_swap.
Qed.

Lemma sort_perm l : Permutation (sort cmp l) l.
Proof.
  induction l as [|x l IH]; simpl; [reflexivity|].
  rewrite insert_perm. now constructor.
Qed.

Lemma insert_sorted x l :
  ascending key l -> ascending key (insert cmp x l).
Proof.
  unfold ascending.
  induction 1 as [|y l Hs IH Hy]; simpl.
  - repeat constructor.
  - destruct (Rle_dec (cmp x y) 0) as [Hle|Hgt];
      unfold cmp in Hle || unfold cmp in Hgt.
    + constructor; [now constructor|].
      constructor; [lra|].
      eapply Forall_impl; [|exact Hy]. simpl. intros; lra.
    + constructor; [exact IH|].
      eapply Permutation_Forall; [symmetry; apply insert_perm|].
      constructor; [lra|exact Hy].
Qed.

Lemma sort_sorted l : ascending key (sort cmp l).
Proof.
  induction l as [|x l IH]; simpl; [constructor|].
  now apply insert_sorted.
Qed.









End SortByKey.


(** *** The distance *)



Lemma toRadians_0 : toRadians 0 = 0.
Proof. unfold toRadians. lra. Qed.



Lemma atan2_0_1 : atan2 0 1 = 0.
Proof.
  unfold atan2. destruct (Rlt_dec 0 1) as [_|H]; [|lra].
  replace (0 / 1) with 0 by lra. apply atan_0.
Qed.

(** X11.  The distance from a point to itself is 0, whatever the point. *)
Lemma calculateDistance_self lat lon : calculateDistance lat lon lat lon = 0.
Proof.
  unfold calculateDistance.
  replace (lat - lat) with 0 by lra. replace (lon - lon) with 0 by lra.
  rewrite toRadians_0. replace (0 / 2) with 0 by lra. rewrite sin_0.
  replace (0 * 0 + 0 * 0 * cos (toRadians lat) * cos (toRadians lat))
    with 0 by ring.
  rewrite Rminus_0_r, sqrt_0, sqrt_1, atan2_0_1. ring.
Qed.








(* ================================================================= *)
(** ** The coordinate validator: what acceptance means *)

Import Notions.
Local Open Scope string_scope.
Local Open Scope bool_scope.
Local Open Scope Z_scope.

Lemma parse_denotes v x : parse_if_string v = JNum x -> denotes v x.
Proof.
  destruct v; simpl; try discriminate; intros [= <-]; constructor.
Qed.

Lemma not_in_range_number lo hi v :
  not_in_range lo hi v = false -> exists x, v = JNum x.
Proof. destruct v; try discriminate. now eexists. Qed.

(** What acceptance by the coordinate validator entails. *)
Lemma validateCoordinates_valid latitude longitude lat lon :
  validateCoordinates latitude longitude = Valid lat lon ->
  exists x y, lat = JNum x /\ lon = JNum y /\
    denotes latitude x /\ denotes longitude y /\
    ~ absent latitude /\ ~ absent longitude /\
    bad_latitude (JNum x) = false /\ bad_longitude (JNum y) = false.
Proof.
  unfold validateCoordinates.
  destruct (coordinates_missing latitude longitude) eqn:Em; [discriminate|].
  destruct (bad_latitude (parse_if_string latitude)) eqn:Ela; [discriminate|].
  destruct (bad_longitude (parse_if_string longitude)) eqn:Elo; [discriminate|].
  intros [= <- <-].
  destruct (not_in_range_number _ _ _ Ela) as [x Ex].
  destruct (not_in_range_number _ _ _ Elo) as [y Ey].
  rewrite Ex in Ela. rewrite Ey in Elo.
  exists x, y. repeat split; trivial; try now apply parse_denotes.
  - intros H. assert (coordinates_missing latitude longitude = true)
      by (apply coordinates_missing_absent; now left). congruence.
  - intros H. assert (coordinates_missing latitude longitude = true)
      by (apply coordinates_missing_absent; now right). congruence.
Qed.

(** X1.  Whatever the coordinate validator accepts is a pair of finite
    Numbers, the latitude in [-90, 90] and the longitude in [-180, 180],
    and each is the input itself or what the input String parses to. *)
Theorem validateCoordinates_sound latitude longitude lat lon :
  genuine latitude -> genuine longitude ->
  validateCoordinates latitude longitude = Valid lat lon ->
  exists x y, lat = JNum x /\ lon = JNum y /\
    denotes latitude x /\ denotes longitude y /\
    within (-90) 90 x /\ within (-180) 180 y.
Proof.
  intros Gx Gy H.
  destruct (validateCoordinates_valid _ _ _ _ H)
    as (x & y & -> & -> & Dx & Dy & _ & _ & Bx & By).
  exists x, y. repeat split; trivial.
  - exact (proj1 (bad_latitude_within x (denotes_well_formed _ _ Gx Dx)) Bx).
  - exact (proj1 (bad_longitude_within y (denotes_well_formed _ _ Gy Dy)) By).
Qed.

Lemma validateCoordinates_sound_witness :
  exists x y, within (-90) 90 x /\ within (-180) 180 y /\
              denotes (JStr "12.5") x /\ denotes (JNum (of_Z (-7))) y.
Proof.
  destruct (validateCoordinates_sound (JStr "12.5") (JNum (of_Z (-7)))
              (JNum (parseFloat "12.5")) (JNum (of_Z (-7))) I eq_refl eq_refl)
    as (x & y & _ & _ & Dx & Dy & Wx & Wy).
  exists x, y. repeat split; assumption.
Defined.



(* ================================================================= *)
(** ** Strings: trimming does not change what is parsed *)

Lemma whitespace_is_plain c :
  is_whitespace c = true ->
  is_digit c = false /\ c <> "+"%char /\ c <> "-"%char /\ c <> "."%char /\
  (Ascii.eqb c "e" || Ascii.eqb c "E") = false.
Proof.
  destruct c as [[] [] [] [] [] [] [] []]; vm_compute; intros H;
    try discriminate H; repeat split; congruence.
Qed.

(** Every string is its [trimEnd] followed by white space. *)
Lemma trimEnd_split s : exists w, blank w = true /\ s = trimEnd s ++ w.
Proof.
  induction s as [|c s (w & Hw & E)]; [now exists ""|].
  simpl. destruct (trimEnd s) as [|c' t] eqn:Et.
  - destruct (is_whitespace c) eqn:Ec.
    + exists (String c s). split; [|reflexivity]. simpl in E. subst s.
      simpl. now rewrite Ec.
    + exists w. split; [assumption|]. simpl. now f_equal.
  - exists w. split; [assumption|]. simpl. now f_equal.
Qed.

Lemma span_digits_blank w s :
  blank w = true ->
  span_digits (s ++ w) = (fst (span_digits s), snd (span_digits s) ++ w).
Proof.
  intros Hw. induction s as [|c s IH]; simpl.
  - destruct w as [|c w]; [reflexivity|]. simpl in *.
    apply andb_true_iff in Hw. destruct Hw as [Hc _].
    destruct (whitespace_is_plain c Hc) as [-> _]. reflexivity.
  - destruct (is_digit c); [|reflexivity].
    rewrite IH. now destruct (span_digits s).
Qed.

Lemma take_sign_blank w s :
  blank w = true ->
  take_sign (s ++ w) = (fst (take_sign s), snd (take_sign s) ++ w).
Proof.
  intros Hw. destruct s as [|c s].
  - destruct w as [|c w]; [reflexivity|]. simpl in Hw.
    apply andb_true_iff in Hw. destruct Hw as [Hc _].
    destruct (whitespace_is_plain c Hc) as (_ & H1 & H2 & _).
    simpl append. rewrite take_sign_other by assumption. reflexivity.
  - change (String c s ++ w) with (String c (s ++ w)).
    destruct (ascii_dec c "+") as [->|N1]; [reflexivity|].
    destruct (ascii_dec c "-") as [->|N2]; [reflexivity|].
    rewrite !take_sign_other by assumption. reflexivity.
Qed.

Lemma fraction_part_blank w s :
  blank w = true ->
  fraction_part (s ++ w) = (fst (fraction_part s), snd (fraction_part s) ++ w).
Proof.
  intros Hw. destruct s as [|c s].
  - destruct w as [|c w]; [reflexivity|]. simpl in Hw.
    apply andb_true_iff in Hw. destruct Hw as [Hc _].
    destruct (whitespace_is_plain c Hc) as (_ & _ & _ & H & _).
    simpl append. rewrite fraction_part_other by assumption. reflexivity.
  - change (String c s ++ w) with (String c (s ++ w)).
    destruct (ascii_dec c ".") as [->|N].
    + simpl. now apply span_digits_blank.
    + rewrite !fraction_part_other by assumption. reflexivity.
Qed.

Lemma exponent_part_blank w s :
  blank w = true -> exponent_part (s ++ w) = exponent_part s.
Proof.
  intros Hw. destruct s as [|c s].
  - destruct w as [|c w]; [reflexivity|]. simpl in Hw.
    apply andb_true_iff in Hw. destruct Hw as [Hc _].
    destruct (whitespace_is_plain c Hc) as (_ & _ & _ & _ & H).
    simpl. now rewrite H.
  - change (String c s ++ w) with (String c (s ++ w)). unfold exponent_part.
    destruct (Ascii.eqb c "e" || Ascii.eqb c "E"); [|reflexivity].
    rewrite take_sign_blank by assumption.
    destruct (take_sign s) as [sg r]. simpl.
    rewrite span_digits_blank by assumption.
    now destruct (span_digits r).
Qed.

Lemma prefix_blank w : blank w = true -> forall s p,
  solid p = true -> String.prefix p (s ++ w) = String.prefix p s.
Proof.
  intros Hw. induction s as [|c s IH]; intros p Hp.
  - destruct p as [|a p]; [now destruct w|].
    destruct w as [|b w]; [reflexivity|].
    simpl in Hw, Hp. apply andb_true_iff in Hw, Hp.
    destruct Hw as [Hb _], Hp as [Ha _]. apply negb_true_iff in Ha.
    change (String.prefix (String a p) ("" ++ String b w))
      with (if ascii_dec a b then String.prefix p w else false).
    destruct (ascii_dec a b) as [->|_]; [congruence|reflexivity].
  - destruct p as [|a p]; [reflexivity|].
    simpl in Hp. apply andb_true_iff in Hp. destruct Hp as [_ Hp].
    change (String.prefix (String a p) (String c s ++ w))
      with (if ascii_dec a c then String.prefix p (s ++ w) else false).
    change (String.prefix (String a p) (String c s))
      with (if ascii_dec a c then String.prefix p s else false).
    destruct (ascii_dec a c); [now apply IH|reflexivity].
Qed.

Lemma unsigned_literal_blank sg w s :
  blank w = true -> unsigned_literal sg (s ++ w) = unsigned_literal sg s.
Proof.
  intros Hw. unfold unsigned_literal.
  rewrite (prefix_blank w Hw s "Infinity" eq_refl).
  destruct (String.prefix "Infinity" s); [reflexivity|].
  rewrite span_digits_blank by assumption.
  destruct (span_digits s) as [ip s2]. simpl fst. simpl snd.
  rewrite fraction_part_blank by assumption.
  destruct (fraction_part s2) as [fp s3]. simpl fst. simpl snd.
  now rewrite exponent_part_blank.
Qed.

Lemma trimStart_idem s : trimStart (trimStart s) = trimStart s.
Proof.
  induction s as [|c s IH]; [reflexivity|]. simpl.
  destruct (is_whitespace c) eqn:E; [exact IH|]. simpl. now rewrite E.
Qed.

Lemma trimStart_blank w : blank w = true -> trimStart w = "".
Proof.
  induction w as [|c w IH]; [reflexivity|]. simpl.
  rewrite andb_true_iff. intros [-> H]. now apply IH.
Qed.

Lemma trimStart_app w s :
  blank w = true ->
  exists w', blank w' = true /\ trimStart (s ++ w) = trimStart s ++ w'.
Proof.
  intros Hw. induction s as [|c s IH].
  - exists "". split; [reflexivity|]. simpl. now apply trimStart_blank.
  - simpl. destruct (is_whitespace c); [exact IH|]. now exists w.
Qed.

Lemma parseFloat_blank w s :
  blank w = true -> parseFloat (s ++ w) = parseFloat s.
Proof.
  intros Hw. unfold parseFloat.
  destruct (trimStart_app w s Hw) as (w' & Hw' & ->).
  rewrite take_sign_blank by assumption.
  destruct (take_sign (trimStart s)) as [sg r]. simpl.
  now apply unsigned_literal_blank.
Qed.

(** Trimming a String first does not change what it parses to. *)
Lemma parseFloat_trim s : parseFloat (trim s) = parseFloat s.
Proof.
  unfold trim.
  destruct (trimEnd_split (trimStart s)) as (w & Hw & E).
  transitivity (parseFloat (trimStart s)).
  - rewrite E at 2. symmetry. now apply parseFloat_blank.
  - unfold parseFloat. now rewrite trimStart_idem.
Qed.

(* ================================================================= *)
(** ** The school validator and the create path: further properties *)

Import Validator Store.

Lemma bad_text_string n v :
  bad_text n v = false ->
  exists s, v = JStr s /\ n <= Z.of_nat (String.length (trim s)).
Proof.
  unfold bad_text. rewrite orb_false_iff. intros [_ H].
  destruct v; try discriminate. exists s. split; [reflexivity|].
  apply Z.ltb_ge in H. exact H.
Qed.

Lemma filter_nil_none {A} (f : A -> bool) l :
  filter f l = [] -> forall x, In x l -> f x = false.
Proof.
  intros H x Hx. destruct (f x) eqn:E; [|reflexivity].
  assert (In x (filter f l)) by (apply filter_In; now split).
  rewrite H in *. contradiction.
Qed.

Section CreateFacts.

Variable sql_eq : string -> string -> bool.

(** What acceptance by the school validator entails. *)
Lemma validateSchoolData_accepts sd h d lat lon d1 :
  validateSchoolData sql_eq sd h d = (Returned (Valid lat lon), d1) ->
  h = Pool /\
  exists n a,
    name sd = JStr n /\ address sd = JStr a /\
    3 <= Z.of_nat (String.length (trim n)) /\
    5 <= Z.of_nat (String.length (trim a)) /\
    validateCoordinates (latitude sd) (longitude sd) = Valid lat lon /\
    (forall r, In r (rows d) -> matches sql_eq (trim n) (trim a) r = false) /\
    fault d (List.length (sent d)) = false /\
    rows d1 = rows d /\
    sent d1 = SelectByNameAddress (trim n) (trim a) :: sent d.
Proof.
  unfold validateSchoolData, validateCoordinates.
  destruct (bad_text 3 (name sd)) eqn:En; [discriminate|].
  destruct (bad_text 5 (address sd)) eqn:Ea; [discriminate|].
  destruct (coordinates_missing _ _); [discriminate|].
  destruct (bad_latitude _); [discriminate|].
  destruct (bad_longitude _); [discriminate|].
  destruct (bad_text_string _ _ En) as (n & Hn & Ln).
  destruct (bad_text_string _ _ Ea) as (a & Ha & La).
  rewrite Hn, Ha. simpl string_of.
  unfold duplicate_check, try_catch, bind, select_by_name_address, send, ret.
  destruct h; [discriminate|].
  destruct (fault d (List.length (sent d))) eqn:Ef; simpl; [discriminate|].
  destruct (filter _ (rows d)) as [|r rs] eqn:Efl; simpl; [|discriminate].
  intros [= <- <- <-]. split; [reflexivity|].
  exists n, a. repeat split; trivial.
  now apply filter_nil_none.
Qed.

(** X3.  Whatever the school validator accepts has a String name of at
    least 3 characters and a String address of at least 5 once trimmed,
    coordinates that the coordinate validator accepts with the same
    values, and no stored row that matches its trimmed name and address;
    the handle was usable, the store answered the one lookup sent, and no
    row changed. *)
Theorem validateSchoolData_sound sd h d lat lon d1 :
  validateSchoolData sql_eq sd h d = (Returned (Valid lat lon), d1) ->
  h = Pool /\
  exists n a,
    name sd = JStr n /\ address sd = JStr a /\
    3 <= Z.of_nat (String.length (trim n)) /\
    5 <= Z.of_nat (String.length (trim a)) /\
    validateCoordinates (latitude sd) (longitude sd) = Valid lat lon /\
    (forall r, In r (rows d) -> matches sql_eq (trim n) (trim a) r = false) /\
    fault d (List.length (sent d)) = false /\
    rows d1 = rows d /\
    sent d1 = SelectByNameAddress (trim n) (trim a) :: sent d.
Proof. exact (validateSchoolData_accepts sd h d lat lon d1). Qed.

(** X4.  Two submissions that pass the checks on their fields and agree
    on the trimmed name and the trimmed address meet the same duplicate
    check: they leave the same store behind and fail, if they fail, with
    the same failure, whatever their white space and coordinates. *)
Theorem duplicate_verdict_by_trimmed_key sd sd' h d :
  first_failure (ordered_checks sd) = None ->
  first_failure (ordered_checks sd') = None ->
  trim (string_of (name sd)) = trim (string_of (name sd')) ->
  trim (string_of (address sd)) = trim (string_of (address sd')) ->
  snd (validateSchoolData sql_eq sd h d) =
  snd (validateSchoolData sql_eq sd' h d) /\
  forall m,
    fst (validateSchoolData sql_eq sd h d) = Returned (Invalid m) <->
    fst (validateSchoolData sql_eq sd' h d) = Returned (Invalid m).
Proof.
  unfold first_failure, ordered_checks, validateSchoolData; simpl.
  destruct (bad_text 3 (name sd)); [discriminate|].
  destruct (bad_text 5 (address sd)); [discriminate|].
  destruct (coordinates_missing (latitude sd) _); [discriminate|].
  destruct (bad_latitude (parse_if_string (latitude sd))); [discriminate|].
  destruct (bad_longitude (parse_if_string (longitude sd))); [discriminate|].
  destruct (bad_text 3 (name sd')); [discriminate|].
  destruct (bad_text 5 (address sd')); [discriminate|].
  destruct (coordinates_missing (latitude sd') _); [discriminate|].
  destruct (bad_latitude (parse_if_string (latitude sd'))); [discriminate|].
  destruct (bad_longitude (parse_if_string (longitude sd'))); [discriminate|].
  intros _ _ En Ea.
  unfold duplicate_check, try_catch, bind, select_by_name_address, send, ret.
  rewrite En, Ea.
  destruct h; simpl; [split; [reflexivity|tauto]|].
  destruct (fault d (List.length (sent d))); simpl; [split; [reflexivity|tauto]|].
  destruct (0 <? _); simpl; split; try reflexivity; try tauto.
  intros m; split; discriminate.
Qed.

(** X5.  When the fields pass and the store answers, a stored row whose
    name and address compare equal to the trimmed name and address of the
    submission makes the validator fail as a duplicate. *)
Theorem validateSchoolData_detects_duplicate sd d r :
  first_failure (ordered_checks sd) = None ->
  fault d (List.length (sent d)) = false ->
  In r (rows d) ->
  sql_eq (school_name r) (trim (string_of (name sd))) = true ->
  sql_eq (school_address r) (trim (string_of (address sd))) = true ->
  fst (validateSchoolData sql_eq sd Pool d) = Returned (Invalid msg_duplicate).
Proof.
  intros Hok Hf Hin Hn Ha.
  apply (validateSchoolData_rejects_match sql_eq sd d r Hok Hf Hin).
  unfold matches. now rewrite Hn, Ha.
Qed.

(** X6.  When the fields pass, a missing handle is reported without any
    statement being sent, and a store that fails on the lookup is reported
    as an error of the duplicate check; in neither case does a row
    change. *)
Theorem validateSchoolData_store_unavailable sd d :
  first_failure (ordered_checks sd) = None ->
  validateSchoolData sql_eq sd NoHandle d =
    (Returned (Invalid msg_no_database), d) /\
  (fault d (List.length (sent d)) = true ->
   exists d', validateSchoolData sql_eq sd Pool d =
                (Returned (Invalid msg_duplicate_error), d') /\
              rows d' = rows d).
Proof.
  unfold first_failure, ordered_checks, validateSchoolData; simpl.
  destruct (bad_text 3 (name sd)); [discriminate|].
  destruct (bad_text 5 (address sd)); [discriminate|].
  destruct (coordinates_missing (latitude sd) _); [discriminate|].
  destruct (bad_latitude (parse_if_string (latitude sd))); [discriminate|].
  destruct (bad_longitude (parse_if_string (longitude sd))); [discriminate|].
  intros _. split; [reflexivity|]. intros Hf.
  unfold duplicate_check, try_catch, bind, select_by_name_address, send, ret.
  rewrite Hf. simpl. eexists. split; reflexivity.
Qed.

(** The create path after an accepted submission, when the store takes
    the insert. *)
Lemma addSchool_after_valid body d lat lon d1 :
  validateSchoolData sql_eq body Pool d = (Returned (Valid lat lon), d1) ->
  fault d (S (List.length (sent d))) = false ->
  let n := string_of (name body) in
  let a := string_of (address body) in
  let la := parseFloat_value (latitude body) in
  let lo := parseFloat_value (longitude body) in
  exists d',
    addSchool sql_eq body d = (Returned (Created (next_id d) n a la lo), d') /\
    rows d' = (rows d ++ [mkSchool (next_id d) n a la lo])%list /\
    next_id d' = next_id d + 1 /\ fault d' = fault d /\
    List.length (sent d') = S (S (List.length (sent d))).
Proof.
  intros Ev Hf n a la lo.
  destruct (validateSchoolData_valid sql_eq body d lat lon d1 Ev)
    as (_ & _ & Hr & Hi & Hfa & Hs).
  unfold addSchool, try_catch, bind. rewrite Ev.
  unfold insert_school, send, ret. rewrite Hfa, Hs. simpl List.length.
  rewrite Hf. simpl. rewrite Hi, Hr.
  eexists. split; [reflexivity|]. simpl. repeat split; reflexivity.
Qed.

(** X7.  When validation accepts the submission and the store takes the
    insert, the create path answers 201 with the identifier the store
    generated, and the table gains exactly one row: that identifier, the
    name and address as submitted, and the parsed coordinates.  For a
    coordinate submitted as a String, the value stored is the value that
    validation returned. *)
Theorem addSchool_created body d lat lon d1 :
  validateSchoolData sql_eq body Pool d = (Returned (Valid lat lon), d1) ->
  fault d (S (List.length (sent d))) = false ->
  exists n a la lo d',
    name body = JStr n /\ address body = JStr a /\
    addSchool sql_eq body d = (Returned (Created (next_id d) n a la lo), d') /\
    rows d' = (rows d ++ [mkSchool (next_id d) n a la lo])%list /\
    next_id d' = next_id d + 1 /\
    (forall s, latitude body = JStr s -> lat = JNum la) /\
    (forall s, longitude body = JStr s -> lon = JNum lo).
Proof.
  intros Ev Hf.
  destruct (addSchool_after_valid body d lat lon d1 Ev Hf)
    as (d' & Ha & Hr & Hi & _).
  destruct (validateSchoolData_accepts body Pool d lat lon d1 Ev)
    as (_ & n & a & Hn & Hna & _ & _ & Hc & _).
  rewrite Hn, Hna in Ha, Hr. simpl in Ha, Hr.
  exists n, a, (parseFloat_value (latitude body)),
    (parseFloat_value (longitude body)), d'.
  repeat split; trivial.
  - intros s Hs. rewrite Hs in *. unfold validateCoordinates in Hc.
    destruct (coordinates_missing _ _); [discriminate|].
    destruct (bad_latitude _); [discriminate|].
    destruct (bad_longitude _); [discriminate|].
    injection Hc as <- _. simpl. now rewrite parseFloat_trim.
  - intros s Hs. rewrite Hs in *. unfold validateCoordinates in Hc.
    destruct (coordinates_missing _ _); [discriminate|].
    destruct (bad_latitude _); [discriminate|].
    destruct (bad_longitude _); [discriminate|].
    injection Hc as _ <-. simpl. now rewrite parseFloat_trim.
Qed.


(** A created record is the one row the create path adds. *)
Lemma addSchool_created_row body d i n a la lo d' :
  addSchool sql_eq body d = (Returned (Created i n a la lo), d') ->
  i = next_id d /\ rows d' = (rows d ++ [mkSchool i n a la lo])%list.
Proof.
  intros Hadd.
  destruct (validateSchoolData_returns sql_eq body Pool d)
    as (v & d1 & Ev & Hr & Hi & _).
  unfold addSchool, try_catch, bind in Hadd. rewrite Ev in Hadd.
  destruct v as [m|lat lon]; [discriminate|].
  unfold insert_school, send, ret in Hadd.
  destruct (fault d1 (List.length (sent d1))); simpl in Hadd; [discriminate|].
  injection Hadd as <- <- <- <- <- <-. simpl. rewrite Hr, Hi. now split.
Qed.

(** X9.  After a record has been created, a submission that passes the
    field checks and whose trimmed name and address are the name and
    address of that record is refused as a duplicate, whatever its white
    space and coordinates, and adds no row (for a comparison under which
    a string equals itself, and a store that answers). *)
Theorem addSchool_then_duplicate body body' d i n a la lo d' :
  (forall s, sql_eq s s = true) ->
  addSchool sql_eq body d = (Returned (Created i n a la lo), d') ->
  first_failure (ordered_checks body') = None ->
  trim (string_of (name body')) = n ->
  trim (string_of (address body')) = a ->
  fault d' (List.length (sent d')) = false ->
  exists d'', addSchool sql_eq body' d' =
                (Returned (ValidationFailed msg_duplicate), d'') /\
              rows d'' = rows d'.
Proof.
  intros Hrefl Hadd Hok Hn Ha Hf.
  assert (Hin : In (mkSchool i n a la lo) (rows d')).
  { destruct (addSchool_created_row _ _ _ _ _ _ _ _ Hadd) as [_ ->].
    apply in_or_app. right. now left. }
  pose proof (validateSchoolData_rejects_match sql_eq body' d' _ Hok Hf Hin)
    as Hrej.
  rewrite Hn, Ha in Hrej. unfold matches in Hrej. simpl in Hrej.
  rewrite !Hrefl in Hrej. specialize (Hrej eq_refl).
  destruct (validateSchoolData_returns sql_eq body' Pool d')
    as (v & d2 & Ev & Hr & _).
  rewrite Ev in Hrej. simpl in Hrej. injection Hrej as ->.
  exists d2. split; [|exact Hr].
  unfold addSchool, try_catch, bind. now rewrite Ev.
Qed.

Lemma addSchool_returns body d :
  exists r d', addSchool sql_eq body d = (Returned r, d').
Proof.
  destruct (validateSchoolData_returns sql_eq body Pool d)
    as (v & d1 & Ev & _).
  unfold addSchool, try_catch, bind. rewrite Ev.
  destruct v; [now eexists _, _|].
  unfold insert_school, send, ret.
  destruct (fault d1 _); simpl; now eexists _, _.
Qed.

End CreateFacts.

(** X10.  With exact comparison of the columns, any sequence of
    submissions whose names and addresses carry no surrounding white
    space keeps the stored trimmed keys distinct and the stored names and
    addresses trimmed, whatever the store fails on. *)
Theorem addSchools_keep_unique_keys bodies : forall d out d',
  Forall tidy bodies ->
  unique_keys d -> stored_trimmed d ->
  addSchools String.eqb bodies d = (out, d') ->
  unique_keys d' /\ stored_trimmed d'.
Proof.
  induction bodies as [|b bs IH]; intros d out d' Ht Hu Hs; simpl.
  - intros [= <- <-]. now split.
  - inversion Ht as [|? ? (n & a & Hn & Ha & Tn & Ta) Ht']; subst.
    unfold bind.
    destruct (addSchool_returns String.eqb b d) as (r & d1 & E1).
    rewrite E1.
    assert (Hb : b = mkSchoolData (JStr n) (JStr a) (latitude b) (longitude b))
      by (destruct b; simpl in *; congruence).
    rewrite Hb in E1.
    destruct (addSchool_keeps_unique_keys n a _ _ d _ d1 Tn Ta Hu Hs E1)
      as [Hu1 Hs1].
    destruct (addSchools String.eqb bs d1) as [o d2] eqn:E2.
    destruct (IH d1 o d2 Ht' Hu1 Hs1 E2) as [Hu2 Hs2].
    destruct o; intros [= <- <-]; now split.
Qed.

Lemma validateSchoolData_sound_witness :
  exists n a, name elm = JStr n /\ address elm = JStr a /\
              3 <= Z.of_nat (String.length (trim n)).
Proof.
  destruct (validateSchoolData_sound String.eqb elm Pool empty_db
              (JNum (parseFloat "51.5")) (JNum (of_Z 0))
              (mkDb [] 1 [SelectByNameAddress "Elm School" "9 High St"]
                 (fun _ => false)) eq_refl)
    as (_ & n & a & Hn & Ha & Ln & _).
  exists n, a. repeat split; assumption.
Defined.

Lemma duplicate_verdict_by_trimmed_key_witness :
  snd (validateSchoolData String.eqb elm Pool elm_db) =
  snd (validateSchoolData String.eqb elm_again Pool elm_db).
Proof.
  exact (proj1 (duplicate_verdict_by_trimmed_key String.eqb elm elm_again
                  Pool elm_db eq_refl eq_refl eq_refl eq_refl)).
Defined.

Lemma validateSchoolData_detects_duplicate_witness :
  fst (validateSchoolData String.eqb elm_again Pool elm_db) =
  Returned (Invalid msg_duplicate).
Proof.
  apply (validateSchoolData_detects_duplicate String.eqb elm_again elm_db
           (mkSchool 1 "Elm School" "9 High St" (parseFloat "51.5") (of_Z 0))
           eq_refl eq_refl).
  - left. reflexivity.
  - reflexivity.
  - reflexivity.
Defined.

Lemma validateSchoolData_store_unavailable_witness :
  validateSchoolData String.eqb elm NoHandle down_db =
    (Returned (Invalid msg_no_database), down_db) /\
  exists d', validateSchoolData String.eqb elm Pool down_db =
               (Returned (Invalid msg_duplicate_error), d') /\
             rows d' = rows down_db.
Proof.
  destruct (validateSchoolData_store_unavailable String.eqb elm down_db
              eq_refl) as [H1 H2].
  split; [exact H1|]. exact (H2 eq_refl).
Defined.

Lemma addSchool_created_witness :
  exists la lo d',
    addSchool String.eqb elm empty_db =
      (Returned (Created 1 "Elm School" "9 High St" la lo), d') /\
    JNum (parseFloat "51.5") = JNum la.
Proof.
  destruct (addSchool_created String.eqb elm empty_db
              (JNum (parseFloat "51.5")) (JNum (of_Z 0))
              (mkDb [] 1 [SelectByNameAddress "Elm School" "9 High St"]
                 (fun _ => false)) eq_refl eq_refl)
    as (n & a & la & lo & d' & Hn & Ha & Hadd & _ & _ & Hla & _).
  injection Hn as <-. injection Ha as <-.
  exists la, lo, d'. split; [exact Hadd|]. exact (Hla " 51.5 " eq_refl).
Defined.


Lemma elm_is_created :
  addSchool String.eqb elm empty_db =
  (Returned (Created 1 "Elm School" "9 High St" (parseFloat " 51.5 ") (of_Z 0)),
   snd (addSchool String.eqb elm empty_db)).
Proof. vm_compute. reflexivity. Qed.

Lemma addSchool_then_duplicate_witness :
  exists d d',
    addSchool String.eqb elm_again d =
      (Returned (ValidationFailed msg_duplicate), d') /\
    rows d' = rows d.
Proof.
  destruct (addSchool_then_duplicate String.eqb elm elm_again empty_db
              1 "Elm School" "9 High St" (parseFloat " 51.5 ") (of_Z 0)
              (snd (addSchool String.eqb elm empty_db))
              (fun s => String.eqb_refl s) elm_is_created
              eq_refl eq_refl eq_refl eq_refl)
    as (d'' & H1 & H2).
  exists (snd (addSchool String.eqb elm empty_db)), d''. split; assumption.
Defined.

Lemma addSchools_keep_unique_keys_witness :
  exists d', unique_keys d' /\ stored_trimmed d' /\
             snd (addSchools String.eqb [elm; elm] empty_db) = d'.
Proof.
  assert (T : tidy elm).
  { exists "Elm School", "9 High St". repeat split; reflexivity. }
  destruct (addSchools String.eqb [elm; elm] empty_db) as [out d'] eqn:E.
  destruct (addSchools_keep_unique_keys [elm; elm] empty_db out d'
              (Forall_cons _ T (Forall_cons _ T (Forall_nil _)))
              (NoDup_nil _) (Forall_nil _) E) as [Hu Hs].
  exists d'. repeat split; assumption.
Defined.

(* ================================================================= *)
(** ** The proximity engine: further properties *)

Local Open Scope R_scope.















(** The ranked output: the input with rounded distances attached, in
    ascending order of them. *)
Lemma rankSchools_facts userLat userLon schools :
  Permutation (rankSchools userLat userLon schools)
              (map (withDistance userLat userLon) schools) /\
  ascending distance (rankSchools userLat userLon schools) /\
  Forall (fun r => distance r = round2 (true_distance userLat userLon r))
         (rankSchools userLat userLon schools).
Proof.
  unfold rankSchools.
  split; [apply (sort_perm _ distance)|].
  split; [apply (sort_sorted _ distance)|].
  eapply Permutation_Forall; [symmetry; apply (sort_perm _ distance)|].
  apply Forall_forall. intros r Hr.
  apply in_map_iff in Hr. destruct Hr as (s & <- & _). reflexivity.
Qed.




(* ================================================================= *)
(** ** The query path *)


(** X19.  The query path lets no exception out and writes nothing: it
    always answers, and the rows are those from before.  Refused
    coordinates are answered with the validator's failure and the store
    is not contacted; accepted ones cost exactly the one fetch.  It
    answers 500 exactly when the coordinates were accepted and the fetch
    failed. *)
Theorem listSchools_reads_only latitude longitude d :
  exists r d',
    Listing.listSchools latitude longitude d = (Returned r, d') /\
    rows d' = rows d /\ next_id d' = next_id d /\
    (forall m, validateCoordinates latitude longitude = Invalid m ->
               r = Listing.ValidationFailed m /\ d' = d) /\
    (isValid (validateCoordinates latitude longitude) = true ->
     sent d' = SelectAll :: sent d) /\
    (r = Listing.InternalError <->
     isValid (validateCoordinates latitude longitude) = true /\
     fault d (List.length (sent d)) = true).
Proof.
  unfold Listing.listSchools, try_catch, bind, select_all, send, ret.
  destruct (validateCoordinates latitude longitude) as [m|la lo].
  - exists (Listing.ValidationFailed m), d.
    split; [reflexivity|]. split; [reflexivity|]. split; [reflexivity|].
    split; [now intros m' [= <-]|]. split; [discriminate|].
    split; [discriminate|]. intros [H _]. discriminate H.
  - destruct (fault d (List.length (sent d))); simpl.
    + eexists _, _.
      split; [reflexivity|]. split; [reflexivity|]. split; [reflexivity|].
      split; [discriminate|]. split; [reflexivity|].
      split; [now split|reflexivity].
    + eexists _, _.
      split; [reflexivity|]. split; [reflexivity|]. split; [reflexivity|].
      split; [discriminate|]. split; [reflexivity|].
      split; [discriminate|]. intros [_ H]. discriminate H.
Qed.



(** X21.  A created record is listed: a query that follows its creation
    and succeeds counts one school more than were stored before the
    creation and returns the record, with the identifier, name and
    address of the 201 response and its rounded distance from the
    reference point. *)
Theorem addSchool_then_listed sql_eq body d i n a la lo d'
        latitude longitude userLat userLon :
  addSchool sql_eq body d = (Returned (Created i n a la lo), d') ->
  validateCoordinates latitude longitude = Valid userLat userLon ->
  fault d' (List.length (sent d')) = false ->
  exists schools d'',
    Listing.listSchools latitude longitude d' =
      (Returned (Listing.Listed userLat userLon
                   (S (List.length (rows d))) schools), d'') /\
    In (mkRanked (Listing.located (mkSchool i n a la lo))
          (round2 (calculateDistance (Listing.as_real userLat)
                     (Listing.as_real userLon)
                     (Listing.to_real la) (Listing.to_real lo))))
       schools.
Proof.
  intros Hadd Hv Hf.
  destruct (addSchool_created_row _ _ _ _ _ _ _ _ _ Hadd) as [_ Hr].
  unfold Listing.listSchools, try_catch, bind, select_all, send, ret.
  rewrite Hv, Hf. simpl. rewrite Hr.
  destruct (rankSchools_facts (Listing.as_real userLat)
              (Listing.as_real userLon)
              (map Listing.located (rows d ++ [mkSchool i n a la lo])))
    as (Hp & _).
  eexists _, _. split.
  - f_equal. f_equal. rewrite (Permutation_length Hp), !length_map.
    rewrite length_app. simpl. f_equal. lia.
  - eapply Permutation_in; [symmetry; exact Hp|].
    rewrite map_app, map_app. apply in_or_app. right. now left.
Qed.

Lemma addSchool_then_listed_witness :
  exists schools d'',
    Listing.listSchools (JStr "51.5") (JStr "0")
      (snd (addSchool String.eqb elm empty_db)) =
      (Returned (Listing.Listed (JNum (parseFloat "51.5"))
                   (JNum (parseFloat "0")) 1%nat schools), d'').
Proof.
  destruct (addSchool_then_listed String.eqb elm empty_db
              1 "Elm School"%string "9 High St"%string
              (parseFloat " 51.5 ") (of_Z 0)
              (snd (addSchool String.eqb elm empty_db))
              (JStr "51.5") (JStr "0")
              (JNum (parseFloat "51.5")) (JNum (parseFloat "0"))
              elm_is_created eq_refl eq_refl)
    as (schools & d'' & H & _).
  exists schools, d''. exact H.
Defined.
